(** * lexilens: the Oxford word-list line parser ([gen_oxford_list.py])

    A shallow embedding of [parse_word_entry] and [parse_subentry] and of the
    Python string and regular-expression primitives they call, followed by the
    properties of the parser.

    Python [str] values are modelled by [string]; every [ascii] stands for the
    code point of the same number (0..255).  The functions of
    [gen_oxford_list.py] return [None] and report through [logging.debug]; the
    embedding keeps the log and returns the values of the local variables a
    caller would assemble into an entry. *)

From Stdlib Require Import String Ascii List Bool Arith Lia.
Import ListNotations.

Open Scope list_scope.
Open Scope string_scope.

(** ** Python string primitives *)

Module PyStr.

(** Line feed, the only character the regular expression [.] refuses. *)
Definition LF : ascii := "010"%char.

(** [str.isspace] on the code points below 256: TAB..CR, FS..US, space,
    NEL (0x85) and NBSP (0xA0). *)
Definition is_space (c : ascii) : bool :=
  let n := nat_of_ascii c in
  ((9 <=? n)%nat && (n <=? 13)%nat) || ((28 <=? n)%nat && (n <=? 32)%nat)
  || (n =? 133)%nat || (n =? 160)%nat.

Fixpoint lstrip (s : string) : string :=
  match s with
  | EmptyString => EmptyString
  | String c s' => if is_space c then lstrip s' else s
  end.

Fixpoint rstrip (s : string) : string :=
  match s with
  | EmptyString => EmptyString
  | String c s' =>
      match rstrip s' with
      | EmptyString => if is_space c then EmptyString else String c EmptyString
      | r => String c r
      end
  end.

(** [s.strip()] *)
Definition strip (s : string) : string := rstrip (lstrip s).

(** [s.startswith(p)] *)
Definition startswith (s p : string) : bool := prefix p s.

(** [s.endswith(p)] *)
Fixpoint endswith (s p : string) : bool :=
  (s =? p)
  || match s with
     | EmptyString => false
     | String _ s' => endswith s' p
     end.

(** Left-to-right scan of [s.replace(old, new)] for a non-empty [old];
    [skip] counts the characters of a match still to be dropped. *)
Fixpoint replace_from (old new : string) (skip : nat) (s : string) : string :=
  match s with
  | EmptyString => EmptyString
  | String c s' =>
      match skip with
      | S k => replace_from old new k s'
      | O =>
          if prefix old s
          then new ++ replace_from old new (String.length old - 1) s'
          else String c (replace_from old new 0 s')
      end
  end.

(** [s.replace("", new)]: [new] before every character and at the end. *)
Fixpoint replace_empty (new s : string) : string :=
  match s with
  | EmptyString => new
  | String c s' => new ++ String c (replace_empty new s')
  end.

(** [s.replace(old, new)]: every non-overlapping occurrence, leftmost first. *)
Definition replace (s old new : string) : string :=
  match old with
  | EmptyString => replace_empty new s
  | String _ _ => replace_from old new 0 s
  end.

(** [s[n:]] *)
Fixpoint drop (n : nat) (s : string) : string :=
  match n, s with
  | S k, String _ s' => drop k s'
  | _, _ => s
  end.

(** The text with only the leftmost occurrence of [old] removed, what
    [s.replace(old, '', 1)] gives: kept for comparison with [replace]. *)
Fixpoint remove_first (s old : string) : string :=
  if prefix old s then drop (String.length old) s
  else
    match s with
    | EmptyString => EmptyString
    | String c s' => String c (remove_first s' old)
    end.

Definition cons_head (c : ascii) (l : list string) : list string :=
  match l with
  | [] => [String c EmptyString]
  | p :: ps => String c p :: ps
  end.

(** Splitting at every character accepted by [is_sep]; the result is never
    empty and keeps empty pieces. *)
Fixpoint split_by (is_sep : ascii -> bool) (s : string) : list string :=
  match s with
  | EmptyString => [EmptyString]
  | String c s' =>
      if is_sep c then EmptyString :: split_by is_sep s'
      else cons_head c (split_by is_sep s')
  end.

(** [s.split(sep)] for a one-character separator. *)
Definition split (s : string) (sep : ascii) : list string :=
  split_by (Ascii.eqb sep) s.

(** [sep.join(parts)] *)
Definition join (sep : string) (parts : list string) : string :=
  String.concat sep parts.

End PyStr.

Import PyStr.

(** ** The compiled patterns of the module *)

Definition BACKSLASH : ascii := "092"%char.

(** The alternatives as the source writes them, inside a regular expression:
    a backslash escapes the dot. *)
Definition PART_OF_SPEECH_VALUES : list string :=
  [ "n\."; "noun\."; "v\."; "adj\."; "adv\."; "prep\."; "pron\."; "conj\.";
    "interj\."; "det\."; "auxiliary"; "auxiliary v\."; "aux\."; "exclam\.";
    "modal"; "modal v\."; "indefinite article"; "definite article"; "number";
    "infinitive marker" ].

(** The text an alternative matches: the escaping backslashes removed. *)
Fixpoint regex_literal (p : string) : string :=
  match p with
  | EmptyString => EmptyString
  | String c p' =>
      if Ascii.eqb c BACKSLASH then
        match p' with
        | EmptyString => EmptyString
        | String d p'' => String d (regex_literal p'')
        end
      else String c (regex_literal p')
  end.

Definition part_of_speech_vocabulary : list string :=
  Eval cbv in map regex_literal PART_OF_SPEECH_VALUES.

(** [start_with_definition_pattern.match(s)] for [^\((.*?)\)]: an opening
    parenthesis, then a closing one before any line feed. *)
Fixpoint closes_before_newline (s : string) : bool :=
  match s with
  | EmptyString => false
  | String c s' =>
      if Ascii.eqb c ")" then true
      else if Ascii.eqb c LF then false
      else closes_before_newline s'
  end.

Definition start_with_definition_pattern_match (s : string) : bool :=
  match s with
  | String c s' => Ascii.eqb c "(" && closes_before_newline s'
  | EmptyString => false
  end.

(** [start_with_part_of_speech_pattern.match(s)] for [^(alt1|alt2|...)]. *)
Definition start_with_part_of_speech_pattern_match (s : string) : bool :=
  existsb (fun p => prefix p s) part_of_speech_vocabulary.

(** [part_of_speech_pattern.match(s)] for [^(alt1|alt2|...)$]; [$] also
    matches just before a final line feed. *)
Definition part_of_speech_pattern_match (s : string) : bool :=
  existsb (fun p => (s =? p) || (s =? p ++ String LF EmptyString))
          part_of_speech_vocabulary.

Definition LEVEL_VALUES : list string := ["A1"; "A2"; "B1"; "B2"; "C1"; "C2"].

Definition is_level (s : string) : bool := existsb (String.eqb s) LEVEL_VALUES.

(** [level_pattern.search(s)], as [group(1)] of the match: the leftmost
    position where an alternative matches, alternatives tried in order. *)
Fixpoint level_pattern_search (s : string) : option string :=
  match s with
  | EmptyString => None
  | String _ s' =>
      match find (fun l => prefix l s) LEVEL_VALUES with
      | Some l => Some l
      | None => level_pattern_search s'
      end
  end.

(** [re.split(r'(A1|A2|B1|B2|C1|C2),', s)]: the text pieces with the captured
    level codes between them; the comma of a match is dropped. *)
Fixpoint re_split_level_comma (s : string) : list string :=
  match s with
  | EmptyString => [EmptyString]
  | String a s' =>
      match s' with
      | String b (String c rest) =>
          if Ascii.eqb c "," && is_level (String a (String b EmptyString))
          then EmptyString :: String a (String b EmptyString)
                 :: re_split_level_comma rest
          else cons_head a (re_split_level_comma s')
      | _ => cons_head a (re_split_level_comma s')
      end
  end.

(** [re.split(r',|\/', s)] *)
Definition re_split_comma_slash (s : string) : list string :=
  split_by (fun c => Ascii.eqb c "," || Ascii.eqb c "/") s.

(** ** Logging and exceptions *)

(** One constructor per [logging.debug] call of the module. *)
Inductive LogRecord : Type :=
| BEGIN_PARSING_WORD_ENTRY (line : string)
| FOUND_WORD (word : string)
| LINE_AFTER_REMOVING_WORD (line : string)
| SUBENTRY (subentry : string)
| DEFINITION (definition : string)
| LEVEL (level : string)
| LEVEL_NOT_FOUND (subentry : string)
| PART_OF_SPEECH_NOT_MATCHED (candidate : string)
| PART_OF_SPEECH (part_of_speech : list string).

Inductive PyException : Type :=
| UnboundLocalError (name : string)
| IndexError.

(** A computation writes log records and either raises or returns. *)
Definition M (A : Type) : Type := (list LogRecord * (PyException + A))%type.

Definition ret {A : Type} (a : A) : M A := ([], inr a).

Definition raise {A : Type} (e : PyException) : M A := ([], inl e).

Definition bind {A B : Type} (m : M A) (k : A -> M B) : M B :=
  match m with
  | (l, inl e) => (l, inl e)
  | (l, inr a) => let (l', r) := k a in ((l ++ l')%list, r)
  end.

Definition logging_debug (r : LogRecord) : M unit := ([r], inr tt).

Notation "x <- m ;; k" := (bind m (fun x => k))
  (at level 61, m at next level, right associativity).
Notation "m ;;; k" := (bind m (fun _ => k))
  (at level 61, right associativity).

(** [l[i]], raising [IndexError] out of range. *)
Definition item (l : list string) (i : nat) : M string :=
  match nth_error l i with
  | Some x => ret x
  | None => raise IndexError
  end.

Fixpoint for_each {A B : Type} (f : A -> M B) (l : list A) : M (list B) :=
  match l with
  | [] => ret []
  | a :: l' => b <- f a ;; bs <- for_each f l' ;; ret (b :: bs)
  end.

(** ** [parse_subentry] *)

Record ParsedSubentry : Type := {
  definition : string;
  partsOfSpeech : list string;
  level : string
}.

(** Lines 40-44: the definition between the parentheses. *)
Definition parse_definition (subentry : string) : M string :=
  if startswith subentry "(" then
    after_open <- item (split subentry "(") 1 ;;
    definition <- item (split after_open ")") 0 ;;
    logging_debug (DEFINITION definition) ;;;
    ret definition
  else ret "".

(** Line 47: the working text once the definition is removed. *)
Definition remove_definition (subentry definition : string) : string :=
  strip (replace subentry ("(" ++ definition ++ ")") "").

(** Lines 50-55: [level] stays unbound when the search fails. *)
Definition parse_level (subentry : string) : M (option string) :=
  match level_pattern_search subentry with
  | Some level => logging_debug (LEVEL level) ;;; ret (Some level)
  | None => logging_debug (LEVEL_NOT_FOUND subentry) ;;; ret None
  end.

(** Reading the local variable [level]. *)
Definition read_level (level : option string) : M string :=
  match level with
  | Some l => ret l
  | None => raise (UnboundLocalError "level")
  end.

(** Line 58: the working text once the level is removed. *)
Definition remove_level (subentry level : string) : string :=
  strip (replace subentry level "").

(** Lines 64-71: the loop over the candidates. *)
Fixpoint collect_part_of_speech (candidates : list string) : M (list string) :=
  match candidates with
  | [] => ret []
  | candidate :: rest =>
      let candidate := strip candidate in
      if candidate =? "" then collect_part_of_speech rest
      else if part_of_speech_pattern_match candidate then
        part_of_speech <- collect_part_of_speech rest ;;
        ret (candidate :: part_of_speech)
      else
        logging_debug (PART_OF_SPEECH_NOT_MATCHED candidate) ;;;
        collect_part_of_speech rest
  end.

Definition parse_subentry (subentry : string) : M ParsedSubentry :=
  definition <- parse_definition subentry ;;
  let subentry := remove_definition subentry definition in
  level_var <- parse_level subentry ;;
  level <- read_level level_var ;;
  let subentry := remove_level subentry level in
  part_of_speech <- collect_part_of_speech (re_split_comma_slash subentry) ;;
  logging_debug (PART_OF_SPEECH part_of_speech) ;;;
  ret {| definition := definition;
         partsOfSpeech := part_of_speech;
         level := level |}.

(** ** [parse_word_entry] *)

Record Entry : Type := {
  wordForms : string;
  subentries : list ParsedSubentry
}.

(** Lines 96-105: the loop body for the indices after the first; [parts] is
    [line_parts[line_part_index:]]. *)
Fixpoint scan_word_parts (parts : list string) : list string :=
  match parts with
  | [] => []
  | part :: rest =>
      let remaining_line := join " " parts in
      if start_with_definition_pattern_match remaining_line then []
      else if start_with_part_of_speech_pattern_match remaining_line then []
      else part :: scan_word_parts rest
  end.

(** Lines 87-107: [word]. *)
Definition find_word (line : string) : string :=
  let word_parts :=
    match split line " " with
    | [] => []
    | first :: rest => first :: scan_word_parts rest
    end in
  join " " word_parts.

(** Line 110: the line once the word is removed. *)
Definition remove_word (line word : string) : string :=
  strip (replace line word "").

(** Lines 120-132: the loop over the candidates; [subentry_part] is the
    carried variable, the result is what is appended to [subentries]. *)
Fixpoint split_loop (subentry_part : string) (candidates : list string)
  : list string :=
  match candidates with
  | [] => []
  | candidate :: rest =>
      let candidate := strip candidate in
      if candidate =? "" then split_loop subentry_part rest
      else if is_level candidate then
        (subentry_part ++ " " ++ candidate) :: split_loop subentry_part rest
      else if existsb (endswith candidate) LEVEL_VALUES then
        candidate :: split_loop subentry_part rest
      else split_loop candidate rest
  end.

(** Lines 120-132: the value of [subentry_part] when the loop over the
    candidates ends. *)
Fixpoint subentry_part_after (subentry_part : string) (candidates : list string)
  : string :=
  match candidates with
  | [] => subentry_part
  | candidate :: rest =>
      let candidate := strip candidate in
      if candidate =? "" then subentry_part_after subentry_part rest
      else if is_level candidate then subentry_part_after subentry_part rest
      else if existsb (endswith candidate) LEVEL_VALUES then
        subentry_part_after subentry_part rest
      else subentry_part_after candidate rest
  end.

(** Lines 116-132. *)
Definition split_subentries (line : string) : list string :=
  split_loop "" (re_split_level_comma line).

(** Lines 134-140. *)
Definition parse_subentries (subentries : list string) : M (list ParsedSubentry) :=
  for_each (fun s => logging_debug (SUBENTRY s)) subentries ;;;
  for_each parse_subentry subentries.

(** Lines 116-140: everything after the word is removed. *)
Definition parse_remainder (line : string) : M (list ParsedSubentry) :=
  parse_subentries (split_subentries line).

Definition parse_word_entry (line : string) : M Entry :=
  logging_debug (BEGIN_PARSING_WORD_ENTRY line) ;;;
  let word := find_word line in
  logging_debug (FOUND_WORD word) ;;;
  let line := remove_word line word in
  logging_debug (LINE_AFTER_REMOVING_WORD line) ;;;
  parsed <- parse_remainder line ;;
  ret {| wordForms := word; subentries := parsed |}.

(** ** Diagnostics

    The module reports anomalies only as log records: a failed level search
    and a candidate outside the vocabulary.  No record is written for a line
    without word boundary or without subentries. *)

Inductive DiagnosticKind : Type :=
| NoWordBoundaryFound
| EmptySubentryList
| MissingLevel
| UnrecognizedPartOfSpeech.

Definition diagnostic_of (r : LogRecord) : option DiagnosticKind :=
  match r with
  | LEVEL_NOT_FOUND _ => Some MissingLevel
  | PART_OF_SPEECH_NOT_MATCHED _ => Some UnrecognizedPartOfSpeech
  | _ => None
  end.

Fixpoint diagnostics (log : list LogRecord) : list DiagnosticKind :=
  match log with
  | [] => []
  | r :: log' =>
      match diagnostic_of r with
      | Some d => d :: diagnostics log'
      | None => diagnostics log'
      end
  end.

(** The number of positions of [s] where a level code starts. *)
Fixpoint count_level_codes (s : string) : nat :=
  match s with
  | EmptyString => 0
  | String _ s' =>
      (if existsb (fun l => prefix l s) LEVEL_VALUES then 1 else 0)
      + count_level_codes s'
  end.



(** [s] contains an occurrence of a level code. *)
Definition contains_level (s : string) : Prop :=
  exists pre l post, In l LEVEL_VALUES /\ s = pre ++ l ++ post.

(** *** The values [parse_subentry] computes, without the monad *)

(** The value of [definition] after lines 40-44. *)
Definition definition_text (subentry : string) : string :=
  if startswith subentry "(" then
    hd "" (split (hd "" (tl (split subentry "("))) ")")
  else "".

Definition definition_log (subentry : string) : list LogRecord :=
  if startswith subentry "(" then [DEFINITION (definition_text subentry)] else [].

Definition in_vocabulary (candidate : string) : bool :=
  existsb (String.eqb candidate) part_of_speech_vocabulary.

(** The candidates line 69 appends, in order. *)
Definition matched_candidates (candidates : list string) : list string :=
  filter in_vocabulary (map strip candidates).

(** The candidates line 71 reports, in order. *)
Definition unmatched_candidates (candidates : list string) : list string :=
  filter (fun c => negb (c =? "") && negb (in_vocabulary c)) (map strip candidates).

(** ** The line finders and [main]

    [find_second_line_candidates] and [find_word_with_number] return [None]
    and log every selected line as it is; the embedding returns the list of
    the logged messages. *)

(** [[a-zA-Z]] *)
Definition is_ascii_letter (c : ascii) : bool :=
  let n := nat_of_ascii c in
  ((65 <=? n)%nat && (n <=? 90)%nat) || ((97 <=? n)%nat && (n <=? 122)%nat).

(** [\d] on the code points below 256. *)
Definition is_digit (c : ascii) : bool :=
  let n := nat_of_ascii c in (48 <=? n)%nat && (n <=? 57)%nat.

(** What is left after the longest run of letters. *)
Fixpoint drop_letters (s : string) : string :=
  match s with
  | EmptyString => EmptyString
  | String c s' => if is_ascii_letter c then drop_letters s' else s
  end.

(** [[^)]*\)]: a closing parenthesis somewhere, line feeds allowed before. *)
Fixpoint closes_paren (s : string) : bool :=
  match s with
  | EmptyString => false
  | String c s' => if Ascii.eqb c ")" then true else closes_paren s'
  end.

(** [[a-zA-Z]+]: a letter, then the rest of the run; gives what follows. *)
Definition after_letters (s : string) : option string :=
  match s with
  | EmptyString => None
  | String c s' => if is_ascii_letter c then Some (drop_letters s') else None
  end.

(** [second_line_pattern.match(s)] for
    [^(A1|A2|B1|B2|C1|C2|\([^)]*\)|[a-zA-Z]+[.])]. *)
Definition second_line_pattern_match (s : string) : bool :=
  existsb (fun l => prefix l s) LEVEL_VALUES
  || match s with
     | String c s' => Ascii.eqb c "(" && closes_paren s'
     | EmptyString => false
     end
  || match after_letters s with
     | Some rest => prefix "." rest
     | None => false
     end.

(** Lines 150-155. *)
Definition find_second_line_candidates (lines : list string) : list string :=
  filter (fun line => second_line_pattern_match (strip line)) lines.

(** [.*$]: no line feed up to the end, or a single one as last character. *)
Fixpoint rest_of_line (s : string) : bool :=
  match s with
  | EmptyString => true
  | String c s' =>
      if Ascii.eqb c LF then
        match s' with EmptyString => true | String _ _ => false end
      else rest_of_line s'
  end.

(** [pattern.match(s)] for [^([a-zA-Z]+\d)\s.*$]. *)
Definition word_with_number_pattern_match (s : string) : bool :=
  match after_letters s with
  | Some (String d (String w rest)) =>
      is_digit d && is_space w && rest_of_line rest
  | _ => false
  end.

(** Lines 159-163. *)
Definition find_word_with_number (lines : list string) : list string :=
  filter (fun line => word_with_number_pattern_match (strip line)) lines.

(** Lines 172-173, on the lines [file.readlines()] returned. *)
Definition main (oxford_list : list string) : M (list Entry) :=
  for_each parse_word_entry oxford_list.

(** ** Vocabulary of the further properties *)

(** Every character of [s] satisfies [f]. *)
Fixpoint all_chars (f : ascii -> bool) (s : string) : bool :=
  match s with
  | EmptyString => true
  | String c s' => f c && all_chars f s'
  end.

Definition is_paren (c : ascii) : bool := Ascii.eqb c "(" || Ascii.eqb c ")".

(** A remainder written as texts each closed by a level code and a comma. *)
Fixpoint comma_terminated (items : list (string * string)) : string :=
  match items with
  | [] => EmptyString
  | (text, l) :: rest => text ++ l ++ "," ++ comma_terminated rest
  end.

(** Not a character of a level code. *)
Definition level_free_char (c : ascii) : bool :=
  negb (Ascii.eqb c "A" || Ascii.eqb c "B" || Ascii.eqb c "C"
        || Ascii.eqb c "1" || Ascii.eqb c "2").

(** What the entries of the vocabulary are made of: no level-code character,
    no opening parenthesis, comma, slash or line feed. *)
Definition tag_char (c : ascii) : bool :=
  level_free_char c
  && negb (Ascii.eqb c "(" || Ascii.eqb c "," || Ascii.eqb c "/"
           || Ascii.eqb c LF).

Definition good_tag (p : string) : bool :=
  all_chars tag_char p && (lstrip p =? p) && (rstrip p =? p) && negb (p =? "").

(** A subentry as the word list writes it: the part-of-speech tags separated
    by a comma and a space, then a space and the level code. *)
Definition tags_and_level (tags : list string) (l : string) : string :=
  join ", " tags ++ " " ++ l.

(** [w in s] *)
Fixpoint occurs (w s : string) : bool :=
  prefix w s
  || match s with
     | EmptyString => false
     | String _ s' => occurs w s'
     end.

(** [t] appended to the last string of [l]. *)
Fixpoint append_last (l : list string) (t : string) : list string :=
  match l with
  | [] => []
  | [p] => [p ++ t]
  | p :: ps => p :: append_last ps t
  end.

(** The line feed that ends a line read by [readlines]. *)
Definition NL : string := String LF "".

(** The level codes that start inside the pieces of a split. *)
Fixpoint count_in_pieces (pieces : list string) : nat :=
  match pieces with
  | [] => 0
  | p :: ps => count_level_codes p + count_in_pieces ps
  end.

(** ** Strings: append, prefix, suffix *)

Section StringFacts.

Lemma append_nil_r (s : string) : s ++ "" = s.
Proof. induction s as [|c s IH]; simpl; [reflexivity | now rewrite IH]. Qed.

Lemma append_assoc (a b c : string) : (a ++ b) ++ c = a ++ (b ++ c).
Proof. induction a as [|x a IH]; simpl; [reflexivity | now rewrite IH]. Qed.

Lemma length_append (a b : string) :
  String.length (a ++ b) = String.length a + String.length b.
Proof. induction a as [|x a IH]; simpl; [reflexivity | now rewrite IH]. Qed.

Lemma append_inv_head (a b c : string) : a ++ b = a ++ c -> b = c.
Proof.
  induction a as [|x a IH]; simpl; intros H; [assumption|].
  injection H as H. auto.
Qed.

Lemma prefix_cons (a b : ascii) (p s : string) :
  prefix (String a p) (String b s) = Ascii.eqb a b && prefix p s.
Proof.
  cbn [prefix]. destruct (ascii_dec a b) as [->|Hne].
  - now rewrite Ascii.eqb_refl.
  - apply Ascii.eqb_neq in Hne. now rewrite Hne.
Qed.

Lemma prefix_spec (p s : string) : prefix p s = true <-> exists t, s = p ++ t.
Proof.
  revert s. induction p as [|a p IH]; intros s.
  - destruct s; simpl; split; intros; eauto.
  - destruct s as [|b s].
    + simpl. split; [discriminate | intros [t Ht]; discriminate].
    + rewrite prefix_cons, andb_true_iff, Ascii.eqb_eq, IH. split.
      * intros [-> [t ->]]. now exists t.
      * intros [t Ht]. simpl in Ht. injection Ht as -> ->. eauto.
Qed.

Lemma prefix_append (p t : string) : prefix p (p ++ t) = true.
Proof. apply prefix_spec. eauto. Qed.

Lemma drop_append (p t : string) : drop (String.length p) (p ++ t) = t.
Proof. induction p as [|a p IH]; simpl; [now destruct t | assumption]. Qed.

Lemma endswith_spec (s p : string) :
  endswith s p = true <-> exists pre, s = pre ++ p.
Proof.
  induction s as [|c s IH].
  - cbn [endswith]. rewrite orb_false_r, String.eqb_eq. split.
    + intros <-. now exists "".
    + intros [pre H]. destruct pre; simpl in H; [assumption | discriminate].
  - cbn [endswith]. rewrite orb_true_iff, String.eqb_eq, IH. split.
    + intros [<- | [pre ->]]; [now exists "" | now exists (String c pre)].
    + intros [pre H]. destruct pre as [|x pre]; simpl in H.
      * now left.
      * injection H as _ H. right. eauto.
Qed.

Lemma endswith_append (a b : string) : endswith (a ++ b) b = true.
Proof. apply endswith_spec. eauto. Qed.

End StringFacts.

(** ** Stripping *)

Section StripFacts.

Lemma lstrip_suffix (s : string) : exists ws, s = ws ++ lstrip s.
Proof.
  induction s as [|c s [ws IH]]; simpl.
  - now exists "".
  - destruct (is_space c).
    + exists (String c ws). simpl. now rewrite <- IH.
    + now exists "".
Qed.

Lemma rstrip_prefix (s : string) : exists ws, s = rstrip s ++ ws.
Proof.
  induction s as [|c s [ws IH]]; simpl.
  - now exists "".
  - destruct (rstrip s) as [|d r] eqn:E.
    + destruct (is_space c).
      * exists (String c s). reflexivity.
      * exists ws. simpl in *. now rewrite <- IH.
    + exists ws. simpl in *. now rewrite <- IH.
Qed.

Lemma strip_substring (s : string) : exists a b, s = a ++ strip s ++ b.
Proof.
  destruct (lstrip_suffix s) as [a Ha].
  destruct (rstrip_prefix (lstrip s)) as [b Hb].
  exists a, b. unfold strip. now rewrite <- Hb.
Qed.

(** A stripped text does not end with a whitespace character. *)
Lemma rstrip_last (s a : string) (c : ascii) :
  rstrip s = a ++ String c "" -> is_space c = false.
Proof.
  revert a. induction s as [|x s IH]; intros a; simpl.
  - destruct a; discriminate.
  - destruct (rstrip s) as [|d r] eqn:E.
    + destruct (is_space x) eqn:Hx; [destruct a; discriminate|].
      destruct a as [|y a]; simpl; intros H.
      * injection H as <-. assumption.
      * destruct a; discriminate.
    + destruct a as [|y a]; simpl; intros H; [discriminate|].
      injection H as _ H. eauto.
Qed.

End StripFacts.

(** ** Level codes *)

(** Case analysis on the six level codes: [tac] closes each case. *)
Ltac each_level H tac :=
  simpl in H; repeat (destruct H as [<- | H]; [tac|]); try contradiction.

Section LevelFacts.

Lemma is_level_In (s : string) : is_level s = true <-> In s LEVEL_VALUES.
Proof.
  unfold is_level. rewrite existsb_exists. split.
  - intros [l [Hl He]]. apply String.eqb_eq in He. now subst.
  - intros H. exists s. split; [assumption | apply String.eqb_refl].
Qed.

Lemma level_shape (l : string) :
  In l LEVEL_VALUES ->
  exists a b, l = String a (String b "")
              /\ Ascii.eqb a "," = false /\ Ascii.eqb b "," = false
              /\ is_space a = false /\ is_space b = false
              /\ (forall x, is_level (String x (String a "")) = false).
Proof.
  intros H.
  each_level H ltac:(do 2 eexists; repeat split;
                     intros [[|] [|] [|] [|] [|] [|] [|] [|]]; reflexivity).
Qed.

Lemma level_nonempty (l : string) : In l LEVEL_VALUES -> l <> "".
Proof.
  intros H ->. destruct (level_shape "" H) as (a & b & E & _). discriminate.
Qed.

Lemma find_level_some (s l : string) :
  find (fun l => prefix l s) LEVEL_VALUES = Some l ->
  In l LEVEL_VALUES /\ exists t, s = l ++ t.
Proof.
  intros H. apply find_some in H. destruct H as [Hin Hp].
  split; [assumption | now apply prefix_spec].
Qed.

Lemma find_level_none (s : string) :
  find (fun l => prefix l s) LEVEL_VALUES = None ->
  forall l t, In l LEVEL_VALUES -> s <> l ++ t.
Proof.
  intros H l t Hin ->.
  pose proof (find_none _ _ H l Hin) as Hf. simpl in Hf.
  now rewrite prefix_append in Hf.
Qed.

(** A successful search returns a level code at its leftmost position. *)
Lemma level_search_some (s l : string) :
  level_pattern_search s = Some l ->
  In l LEVEL_VALUES
  /\ exists pre post,
      s = pre ++ l ++ post
      /\ forall p l' q, In l' LEVEL_VALUES -> s = p ++ l' ++ q ->
                        String.length pre <= String.length p.
Proof.
  induction s as [|c s IH]; [discriminate|].
  cbn [level_pattern_search].
  destruct (find (fun l0 => prefix l0 (String c s)) LEVEL_VALUES) as [l0|] eqn:F.
  - intros [= ->]. destruct (find_level_some _ _ F) as [Hin [t Ht]].
    split; [assumption|]. exists "", t. split; [assumption|].
    intros; simpl; lia.
  - intros H. destruct (IH H) as [Hin (pre & post & E & Hfirst)].
    split; [assumption|]. exists (String c pre), post. split.
    + simpl. now rewrite <- E.
    + intros p l' q Hl' Hs. destruct p as [|x p].
      * exfalso. exact (find_level_none _ F l' q Hl' Hs).
      * simpl in Hs. injection Hs as _ Hs. simpl.
        specialize (Hfirst p l' q Hl' Hs). lia.
Qed.

Lemma level_search_none (s : string) :
  level_pattern_search s = None <-> ~ contains_level s.
Proof.
  split.
  - induction s as [|c s IH]; intros H (pre & l & post & Hin & E).
    + destruct pre; simpl in E; [|discriminate].
      destruct (level_shape l Hin) as (a & b & -> & _). discriminate.
    + cbn [level_pattern_search] in H.
      destruct (find (fun l0 => prefix l0 (String c s)) LEVEL_VALUES) eqn:F;
        [discriminate|].
      destruct pre as [|x pre].
      * exact (find_level_none _ F l post Hin E).
      * simpl in E. injection E as _ E. apply (IH H).
        now exists pre, l, post.
  - intros H. destruct (level_pattern_search s) as [l|] eqn:E; [|reflexivity].
    exfalso. apply H. destruct (level_search_some _ _ E) as [Hin (pre & post & Hs & _)].
    now exists pre, l, post.
Qed.

Lemma no_level_substring (a b c : string) :
  level_pattern_search (a ++ b ++ c) = None -> level_pattern_search b = None.
Proof.
  rewrite !level_search_none. intros H (pre & l & post & Hin & ->). apply H.
  exists (a ++ pre), l, (post ++ c). split; [assumption|].
  now rewrite !append_assoc.
Qed.

Lemma no_level_strip (s : string) :
  level_pattern_search s = None -> level_pattern_search (strip s) = None.
Proof.
  destruct (strip_substring s) as (a & b & E). intros H.
  rewrite E in H. exact (no_level_substring _ _ _ H).
Qed.

Lemma no_level_not_level (s : string) :
  level_pattern_search s = None -> is_level s = false.
Proof.
  rewrite level_search_none. intros H.
  destruct (is_level s) eqn:E; [|reflexivity].
  exfalso. apply H. apply is_level_In in E.
  exists "", s, "". split; [assumption|]. simpl. now rewrite append_nil_r.
Qed.

Lemma no_level_not_endswith (s : string) :
  level_pattern_search s = None -> existsb (endswith s) LEVEL_VALUES = false.
Proof.
  rewrite level_search_none. intros H.
  destruct (existsb (endswith s) LEVEL_VALUES) eqn:E; [|reflexivity].
  exfalso. apply H. apply existsb_exists in E. destruct E as (l & Hin & He).
  apply endswith_spec in He. destruct He as [pre ->].
  exists pre, l, "". split; [assumption|]. now rewrite append_nil_r.
Qed.

(** A text that ends with a level code contains one. *)
Lemma count_level_codes_pos (s : string) :
  contains_level s -> 1 <= count_level_codes s.
Proof.
  intros (pre & l & post & Hin & ->).
  induction pre as [|c pre IH].
  - destruct (level_shape l Hin) as (a & b & -> & _).
    cbn [append count_level_codes].
    replace (existsb _ LEVEL_VALUES) with true; [simpl; lia|].
    symmetry. apply existsb_exists. exists (String a (String b "")).
    split; [assumption|]. apply (prefix_append (String a (String b "")) post).
  - cbn [append count_level_codes]. lia.
Qed.

End LevelFacts.

(** ** The two regular-expression splits *)

Section SplitFacts.

Lemma cons_head_app (a : ascii) (l m : list string) :
  l <> [] -> cons_head a (l ++ m)%list = (cons_head a l ++ m)%list.
Proof. destruct l; [congruence | reflexivity]. Qed.

Lemma re_split_level_comma_unfold (a : ascii) (s' : string) :
  re_split_level_comma (String a s') =
  match s' with
  | String b (String c rest) =>
      if Ascii.eqb c "," && is_level (String a (String b ""))
      then "" :: String a (String b "") :: re_split_level_comma rest
      else cons_head a (re_split_level_comma s')
  | _ => cons_head a (re_split_level_comma s')
  end.
Proof. reflexivity. Qed.

Lemma re_split_level_comma_nonempty (s : string) : re_split_level_comma s <> [].
Proof.
  induction s as [|a s IH]; [discriminate|].
  rewrite re_split_level_comma_unfold.
  assert (forall l, l <> [] -> cons_head a l <> []) as Hc
      by (intros [|] ?; [congruence | discriminate]).
  destruct s as [|b [|c rest]]; try (apply Hc; assumption).
  destruct (_ && _); [discriminate | apply Hc; assumption].
Qed.

(** Without a level code there is nothing to split at. *)
Lemma re_split_no_level (s : string) :
  level_pattern_search s = None -> re_split_level_comma s = [s].
Proof.
  induction s as [|a s IH]; [reflexivity|]. intros H.
  assert (level_pattern_search s = None) as Hs
      by (apply (no_level_substring (String a "") s ""); simpl;
          now rewrite append_nil_r).
  rewrite re_split_level_comma_unfold, (IH Hs).
  destruct s as [|b [|c rest]]; try reflexivity.
  replace (is_level (String a (String b ""))) with false;
    [now rewrite andb_false_r|].
  symmetry. apply no_level_not_level.
  apply (no_level_substring "" (String a (String b "")) (String c rest)), H.
Qed.

(** A level code followed by a comma always splits: the pieces before it are
    those of the text before it, the pieces after it those of the text after
    it. *)
Lemma re_split_level_comma_app (s l t : string) :
  In l LEVEL_VALUES ->
  re_split_level_comma (s ++ l ++ "," ++ t) =
  (re_split_level_comma s ++ l :: re_split_level_comma t)%list.
Proof.
  intros Hin. destruct (level_shape l Hin) as (x & y & -> & Hx & Hy & _ & _ & Hlev).
  assert (is_level (String x (String y "")) = true) as Hl by now apply is_level_In.
  remember (String.length s) as n eqn:Hn. revert s Hn.
  induction n as [n IH] using lt_wf_ind. intros s Hn.
  destruct s as [|a [|b [|c rest]]].
  - cbn [append]. rewrite re_split_level_comma_unfold.
    cbn [Ascii.eqb Bool.eqb andb]. now rewrite Hl.
  - cbn [append]. rewrite re_split_level_comma_unfold, Hy. cbn [andb].
    change (String x (String y (String "," t)))
      with ("" ++ String x (String y "") ++ "," ++ t).
    rewrite (IH 0); [reflexivity | simpl in Hn; lia | reflexivity].
  - cbn [append]. rewrite re_split_level_comma_unfold, Hx. cbn [andb].
    change (String b (String x (String y (String "," t))))
      with (String b "" ++ String x (String y "") ++ "," ++ t).
    rewrite (IH 1); [reflexivity | simpl in Hn; lia | reflexivity].
  - cbn [append].
    rewrite (re_split_level_comma_unfold a (String b (String c rest))).
    rewrite re_split_level_comma_unfold.
    change (String b (String c (rest ++ String x (String y (String "," t)))))
      with (String b (String c rest) ++ String x (String y "") ++ "," ++ t).
    change (rest ++ String x (String y (String "," t)))
      with (rest ++ String x (String y "") ++ "," ++ t).
    simpl in Hn.
    destruct (Ascii.eqb c "," && is_level (String a (String b ""))).
    + rewrite (IH (String.length rest)); [reflexivity | lia | reflexivity].
    + rewrite (IH (S (S (String.length rest)))); [|lia|reflexivity].
      apply cons_head_app, re_split_level_comma_nonempty.
Qed.

End SplitFacts.

(** ** The subentry splitter *)

Section SplitterFacts.

Lemma level_strip (l : string) : In l LEVEL_VALUES -> strip l = l.
Proof.
  intros H. each_level H ltac:(reflexivity).
Qed.

Lemma split_loop_cons (part candidate : string) (rest : list string) :
  split_loop part (candidate :: rest) =
  if strip candidate =? "" then split_loop part rest
  else if is_level (strip candidate)
       then (part ++ " " ++ strip candidate) :: split_loop part rest
       else if existsb (endswith (strip candidate)) LEVEL_VALUES
            then strip candidate :: split_loop part rest
            else split_loop (strip candidate) rest.
Proof. reflexivity. Qed.

(** A candidate that is a level code closes a subentry made of the carried
    text, a space and the code; the carried text stays as it is. *)
Lemma split_loop_level (part l : string) (rest : list string) :
  In l LEVEL_VALUES ->
  split_loop part (l :: rest) = (part ++ " " ++ l) :: split_loop part rest.
Proof.
  intros Hin. rewrite split_loop_cons, (level_strip l Hin).
  replace (l =? "") with false
    by (symmetry; apply String.eqb_neq, level_nonempty, Hin).
  now replace (is_level l) with true by (symmetry; now apply is_level_In).
Qed.

(** A candidate without level code closes nothing: it is dropped when blank
    and becomes the carried text otherwise. *)
Lemma split_loop_text (part text : string) (rest : list string) :
  level_pattern_search text = None ->
  split_loop part (text :: rest) =
  split_loop (if strip text =? "" then part else strip text) rest.
Proof.
  intros H. apply no_level_strip in H. rewrite split_loop_cons.
  rewrite (no_level_not_level _ H), (no_level_not_endswith _ H).
  now destruct (strip text =? "").
Qed.

Lemma split_loop_ends (cands : list string) (part sub : string) :
  In sub (split_loop part cands) ->
  exists l, In l LEVEL_VALUES /\ endswith sub l = true.
Proof.
  revert part. induction cands as [|c cands IH]; intros part; [contradiction|].
  rewrite split_loop_cons.
  destruct (strip c =? ""); [apply IH|].
  destruct (is_level (strip c)) eqn:El.
  - intros [<- | H]; [|now apply IH with part].
    exists (strip c). split; [now apply is_level_In|].
    rewrite <- append_assoc. apply endswith_append.
  - destruct (existsb (endswith (strip c)) LEVEL_VALUES) eqn:Ee.
    + intros [<- | H]; [|now apply IH with part].
      apply existsb_exists in Ee. exact Ee.
    + apply IH.
Qed.

(** The text after the last level code followed by a comma is never part of
    a closed subentry when it holds no level code. *)
Lemma split_loop_trailing (cands : list string) (part l tail : string) :
  In l LEVEL_VALUES -> level_pattern_search tail = None ->
  split_loop part (cands ++ [l; tail]) = split_loop part (cands ++ [l; ""]).
Proof.
  intros Hin Htail. revert part.
  induction cands as [|c cands IH]; intros part.
  - cbn [app]. rewrite !(split_loop_level _ _ _ Hin).
    rewrite (split_loop_text _ _ _ Htail). reflexivity.
  - cbn [app]. rewrite !split_loop_cons, !IH. reflexivity.
Qed.

Lemma subentry_part_after_cons (part candidate : string) (rest : list string) :
  subentry_part_after part (candidate :: rest) =
  if strip candidate =? "" then subentry_part_after part rest
  else if is_level (strip candidate) then subentry_part_after part rest
       else if existsb (endswith (strip candidate)) LEVEL_VALUES
            then subentry_part_after part rest
            else subentry_part_after (strip candidate) rest.
Proof. reflexivity. Qed.

(** The loop over two runs of candidates: the second run starts with the
    text the first run leaves in [subentry_part]. *)
Lemma split_loop_app (a b : list string) (part : string) :
  split_loop part (a ++ b) =
  (split_loop part a ++ split_loop (subentry_part_after part a) b)%list.
Proof.
  revert part. induction a as [|c a IH]; intros part; [reflexivity|].
  cbn [app]. rewrite !split_loop_cons, subentry_part_after_cons.
  destruct (strip c =? ""); [apply IH|].
  destruct (is_level (strip c)); [cbn [app]; now rewrite IH|].
  destruct (existsb (endswith (strip c)) LEVEL_VALUES);
    [cbn [app]; now rewrite IH | apply IH].
Qed.

Lemma subentry_part_after_app (a b : list string) (part : string) :
  subentry_part_after part (a ++ b) =
  subentry_part_after (subentry_part_after part a) b.
Proof.
  revert part. induction a as [|c a IH]; intros part; [reflexivity|].
  cbn [app]. rewrite !subentry_part_after_cons.
  destruct (strip c =? ""); [apply IH|].
  destruct (is_level (strip c)); [apply IH|].
  destruct (existsb (endswith (strip c)) LEVEL_VALUES); apply IH.
Qed.

(** Closing a subentry leaves [subentry_part] as it is. *)
Lemma subentry_part_after_level (part l : string) (rest : list string) :
  In l LEVEL_VALUES ->
  subentry_part_after part (l :: rest) = subentry_part_after part rest.
Proof.
  intros Hin. rewrite subentry_part_after_cons, (level_strip l Hin).
  replace (l =? "") with false
    by (symmetry; apply String.eqb_neq, level_nonempty, Hin).
  now replace (is_level l) with true by (symmetry; now apply is_level_In).
Qed.

End SplitterFacts.

(** ** The monad *)

Section MonadFacts.

Lemma bind_ret_l {A B : Type} (a : A) (k : A -> M B) : bind (ret a) k = k a.
Proof. unfold bind, ret. now destruct (k a). Qed.

Lemma bind_log {B : Type} (r : LogRecord) (k : unit -> M B) :
  bind (logging_debug r) k = (r :: fst (k tt), snd (k tt)).
Proof. unfold bind, logging_debug. now destruct (k tt). Qed.

End MonadFacts.

(** ** [str.replace] *)

Section ReplaceFacts.

Lemma drop_zero (s : string) : drop 0 s = s.
Proof. now destruct s. Qed.

Lemma replace_from_skip (old new : string) (k : nat) (s : string) :
  replace_from old new k s = replace_from old new 0 (drop k s).
Proof.
  revert k. induction s as [|c s IH]; intros [|k]; try reflexivity.
  cbn [replace_from drop]. apply IH.
Qed.

(** An occurrence at the head is replaced and the scan goes on after it. *)
Lemma replace_from_match (old new t : string) :
  old <> "" ->
  replace_from old new 0 (old ++ t) = new ++ replace_from old new 0 t.
Proof.
  destruct old as [|a old]; [congruence|]. intros _.
  change (String a old ++ t) with (String a (old ++ t)).
  cbn [replace_from].
  change (String a (old ++ t)) with (String a old ++ t).
  rewrite prefix_append, replace_from_skip. cbn [String.length].
  now rewrite Nat.sub_succ, Nat.sub_0_r, drop_append.
Qed.

Lemma replace_from_no_match (old new : string) (c : ascii) (s : string) :
  prefix old (String c s) = false ->
  replace_from old new 0 (String c s) = String c (replace_from old new 0 s).
Proof. intros H. cbn [replace_from]. now rewrite H. Qed.

(** The leftmost occurrence is replaced, and so are the occurrences the scan
    meets after it. *)
Lemma replace_first_occurrence (old new a b : string) :
  old <> "" ->
  (forall p q, a ++ old ++ b = p ++ old ++ q ->
               String.length a <= String.length p) ->
  replace (a ++ old ++ b) old new = a ++ new ++ replace b old new.
Proof.
  intros Hne. unfold replace. destruct old as [|o old]; [congruence|].
  remember (String o old) as w eqn:Hw. clear Hw.
  induction a as [|c a IH]; intros Hfirst.
  - cbn [append]. now apply replace_from_match.
  - change (String c a ++ w ++ b) with (String c (a ++ w ++ b)).
    rewrite replace_from_no_match.
    + cbn [append]. f_equal. apply IH. intros p q E.
      specialize (Hfirst (String c p) q). simpl in Hfirst.
      rewrite E in Hfirst. specialize (Hfirst eq_refl). lia.
    + destruct (prefix w (String c (a ++ w ++ b))) eqn:P; [|reflexivity].
      apply prefix_spec in P. destruct P as [q E].
      specialize (Hfirst "" q). simpl in Hfirst.
      specialize (Hfirst E). lia.
Qed.

Lemma replace_prefix (old new t : string) :
  old <> "" -> replace (old ++ t) old new = new ++ replace t old new.
Proof.
  intros Hne. apply (replace_first_occurrence old new "" t Hne).
  intros; simpl; lia.
Qed.

Lemma replace_empty_by_empty (s : string) : replace s "" "" = s.
Proof. induction s as [|c s IH]; simpl in *; [reflexivity | now rewrite IH]. Qed.

End ReplaceFacts.

(** ** [str.split] and [str.join] *)

Section SplitJoinFacts.

Lemma split_by_nonempty (f : ascii -> bool) (s : string) :
  exists p ps, split_by f s = p :: ps.
Proof.
  induction s as [|c s (p & ps & IH)]; simpl; [eauto|].
  destruct (f c); [eauto|]. rewrite IH. simpl. eauto.
Qed.

Lemma join_cons (sep p q : string) (l : list string) :
  join sep (p :: q :: l) = p ++ sep ++ join sep (q :: l).
Proof. reflexivity. Qed.

(** Joining what was split gives the text back. *)
Lemma join_split (sep : ascii) (s : string) :
  join (String sep "") (split s sep) = s.
Proof.
  unfold split. induction s as [|c s IH]; [reflexivity|].
  cbn [split_by]. destruct (split_by_nonempty (Ascii.eqb sep) s) as (p & ps & E).
  rewrite E in *. destruct (Ascii.eqb sep c) eqn:Ec.
  - apply Ascii.eqb_eq in Ec. subst c. rewrite join_cons, IH. reflexivity.
  - cbn [cons_head]. destruct ps as [|q ps].
    + simpl in *. now rewrite IH.
    + rewrite <- IH, !join_cons. reflexivity.
Qed.

(** Joining the first parts gives a prefix of the join of all parts. *)
Lemma join_app_prefix (sep p : string) (xs tl : list string) :
  exists rest, join sep (p :: (xs ++ tl)%list) = join sep (p :: xs) ++ rest.
Proof.
  revert p. induction xs as [|x xs IH]; intros p.
  - destruct tl as [|t tl].
    + exists "". simpl. now rewrite append_nil_r.
    + exists (sep ++ join sep (t :: tl)). reflexivity.
  - destruct (IH x) as [rest E]. exists rest.
    cbn [app]. rewrite !join_cons, E. now rewrite !append_assoc.
Qed.

Lemma scan_word_parts_prefix (parts : list string) :
  exists tl, parts = (scan_word_parts parts ++ tl)%list.
Proof.
  induction parts as [|p parts [tl IH]]; [now exists []|].
  cbn [scan_word_parts].
  destruct (start_with_definition_pattern_match _); [now exists (p :: parts)|].
  destruct (start_with_part_of_speech_pattern_match _); [now exists (p :: parts)|].
  exists tl. simpl. now rewrite <- IH.
Qed.

(** The word is what the line starts with. *)
Lemma find_word_prefix (line : string) :
  exists rest, line = find_word line ++ rest.
Proof.
  unfold find_word.
  destruct (split_by_nonempty (Ascii.eqb " ") line) as (p & ps & E).
  pose proof (join_split " " line) as J. unfold split in *. rewrite E in *.
  destruct (scan_word_parts_prefix ps) as [tl Htl].
  destruct (join_app_prefix " " p (scan_word_parts ps) tl) as [rest Hr].
  exists rest. rewrite <- Hr, <- Htl. now symmetry.
Qed.



End SplitJoinFacts.

(** ** [parse_subentry] in closed form *)

Section ParseSubentryFacts.

Lemma parse_definition_eq (s : string) :
  parse_definition s = (definition_log s, inr (definition_text s)).
Proof.
  unfold parse_definition, definition_log, definition_text.
  destruct (startswith s "(") eqn:E; [|reflexivity].
  unfold startswith in E. apply prefix_spec in E. destruct E as [t ->].
  change (split ("(" ++ t) "(") with ("" :: split t "(").
  destruct (split_by_nonempty (Ascii.eqb "(") t) as (p & ps & Ep).
  destruct (split_by_nonempty (Ascii.eqb ")") p) as (q & qs & Eq).
  unfold split. rewrite Ep. cbn [item nth_error tl hd].
  rewrite bind_ret_l, Eq. reflexivity.
Qed.

Lemma existsb_pointwise {A : Type} (f g : A -> bool) (l : list A) :
  (forall x, f x = g x) -> existsb f l = existsb g l.
Proof. intros H. induction l as [|x l IH]; simpl; [reflexivity | now rewrite H, IH]. Qed.

(** On a stripped candidate the anchored pattern is membership in the
    vocabulary: the candidate cannot end with the line feed [$] tolerates. *)
Lemma part_of_speech_pattern_match_strip (c : string) :
  part_of_speech_pattern_match (strip c) = in_vocabulary (strip c).
Proof.
  unfold part_of_speech_pattern_match, in_vocabulary.
  apply existsb_pointwise. intros p.
  destruct (strip c =? p ++ String LF "") eqn:E; [|apply orb_false_r].
  apply String.eqb_eq in E. unfold strip in E.
  apply rstrip_last in E. discriminate.
Qed.

Lemma collect_part_of_speech_eq (candidates : list string) :
  collect_part_of_speech candidates =
  (map PART_OF_SPEECH_NOT_MATCHED (unmatched_candidates candidates),
   inr (matched_candidates candidates)).
Proof.
  unfold unmatched_candidates, matched_candidates.
  induction candidates as [|c cs IH]; [reflexivity|].
  cbn [collect_part_of_speech map filter].
  rewrite part_of_speech_pattern_match_strip.
  destruct (strip c =? "") eqn:E.
  - apply String.eqb_eq in E. rewrite E. exact IH.
  - destruct (in_vocabulary (strip c)); rewrite IH;
      unfold bind, ret, logging_debug; cbn [negb andb map app];
      rewrite ?app_nil_r; reflexivity.
Qed.

Lemma parse_subentry_eq (s : string) :
  parse_subentry s =
  let text := remove_definition s (definition_text s) in
  match level_pattern_search text with
  | None =>
      ((definition_log s ++ [LEVEL_NOT_FOUND text])%list,
       inl (UnboundLocalError "level"))
  | Some l =>
      let candidates := re_split_comma_slash (remove_level text l) in
      ((definition_log s
        ++ LEVEL l
        :: map PART_OF_SPEECH_NOT_MATCHED (unmatched_candidates candidates)
        ++ [PART_OF_SPEECH (matched_candidates candidates)])%list,
       inr {| definition := definition_text s;
              partsOfSpeech := matched_candidates candidates;
              level := l |})
  end.
Proof.
  unfold parse_subentry. rewrite parse_definition_eq.
  unfold bind at 1. cbv beta iota zeta. unfold parse_level.
  destruct (level_pattern_search _) as [l|].
  - cbv beta iota zeta delta [bind logging_debug ret read_level].
    rewrite collect_part_of_speech_eq. cbn [app]. rewrite ?app_nil_r.
    reflexivity.
  - reflexivity.
Qed.

End ParseSubentryFacts.

(** ** No exception inside [parse_word_entry]

    Every subentry the splitter emits ends in a level code; removing the
    parenthesised definition and stripping keep that ending, so the level
    search of [parse_subentry] succeeds on it. *)

Section PipelineFacts.

Lemma append_char_split (pre a u l : string) (c : ascii) :
  a ++ String c u = pre ++ l ->
  String.length a < String.length pre \/ exists l1 l2, l = l1 ++ String c l2.
Proof.
  revert a. induction pre as [|x pre IH]; intros a E.
  - right. now exists a, u.
  - destruct a as [|y a]; [left; simpl; lia|].
    simpl in E. injection E as _ E. destruct (IH a E) as [H | H].
    + left. simpl. lia.
    + now right.
Qed.

Lemma level_without_paren (l l1 l2 : string) :
  In l LEVEL_VALUES -> l <> l1 ++ String ")" l2.
Proof.
  intros H E.
  each_level H ltac:(destruct l1 as [|? [|? [|? ?]]]; discriminate).
Qed.

Lemma replace_from_keeps_level (d l : string) :
  In l LEVEL_VALUES ->
  forall pre k, k <= String.length pre ->
  exists t, replace_from ("(" ++ d ++ ")") "" k (pre ++ l) = t ++ l.
Proof.
  intros Hin. induction pre as [|c pre IH]; intros k Hk.
  - assert (k = 0) as -> by (simpl in Hk; lia). exists "".
    each_level Hin ltac:(reflexivity).
  - destruct k as [|k].
    + change (String c pre ++ l) with (String c (pre ++ l)).
      cbn [replace_from].
      destruct (prefix ("(" ++ d ++ ")") (String c (pre ++ l))) eqn:P.
      * apply prefix_spec in P. destruct P as [u E].
        change (String c (pre ++ l)) with (String c pre ++ l) in E.
        change ("(" ++ d ++ ")") with (String "(" d ++ ")") in E.
        rewrite append_assoc in E. symmetry in E.
        destruct (append_char_split _ _ _ _ _ E) as [L | (l1 & l2 & El)];
          [|exfalso; exact (level_without_paren _ _ _ Hin El)].
        destruct (IH (String.length ("(" ++ d ++ ")") - 1)) as [t Ht].
        { change ("(" ++ d ++ ")") with (String "(" d ++ ")").
          rewrite length_append. simpl in *. lia. }
        exists t. exact Ht.
      * destruct (IH 0 (Nat.le_0_l _)) as [t Ht].
        exists (String c t).
        change (String c t ++ l) with (String c (t ++ l)). now rewrite Ht.
    + change (String c pre ++ l) with (String c (pre ++ l)).
      cbn [replace_from]. apply IH. simpl in Hk. lia.
Qed.

Lemma rstrip_keeps_suffix (t l : string) :
  l <> "" -> rstrip l = l -> rstrip (t ++ l) = t ++ l.
Proof.
  intros Hne Hl. induction t as [|c t IH]; [assumption|].
  cbn [append rstrip]. rewrite IH.
  destruct (t ++ l) eqn:E; [|reflexivity].
  destruct t; simpl in E; [congruence | discriminate].
Qed.

Lemma strip_keeps_level (t l : string) :
  In l LEVEL_VALUES -> exists t', strip (t ++ l) = t' ++ l.
Proof.
  intros Hin. unfold strip.
  assert (rstrip l = l) as Hr by each_level Hin ltac:(reflexivity).
  assert (lstrip l = l) as Hl by each_level Hin ltac:(reflexivity).
  pose proof (level_nonempty l Hin) as Hne.
  induction t as [|c t [t' IH]].
  - exists "". simpl. now rewrite Hl.
  - simpl. destruct (is_space c).
    + now exists t'.
    + exists (String c t).
      apply (rstrip_keeps_suffix (String c t) l Hne Hr).
Qed.

(** A subentry that ends in a level code is parsed without exception. *)
Lemma parse_subentry_returns (pre l : string) :
  In l LEVEL_VALUES ->
  exists log r, parse_subentry (pre ++ l) = (log, inr r).
Proof.
  intros Hin. rewrite parse_subentry_eq. cbv zeta.
  destruct (level_pattern_search _) as [found|] eqn:E; [eauto|].
  exfalso. apply level_search_none in E. apply E. clear E.
  unfold remove_definition, replace.
  destruct (replace_from_keeps_level (definition_text (pre ++ l)) l Hin
              pre 0 (Nat.le_0_l _)) as [t Ht].
  change ("(" ++ definition_text (pre ++ l) ++ ")")
    with (String "(" (definition_text (pre ++ l) ++ ")")) in *.
  cbv iota beta. rewrite Ht.
  destruct (strip_keeps_level t l Hin) as [t' Ht']. rewrite Ht'.
  exists t', l, "". split; [assumption | now rewrite append_nil_r].
Qed.

Lemma for_each_returns {A B : Type} (f : A -> M B) (l : list A) :
  (forall a, In a l -> exists log b, f a = (log, inr b)) ->
  exists log bs, for_each f l = (log, inr bs).
Proof.
  induction l as [|a l IH]; intros H; [now exists [], []|].
  destruct (H a (or_introl eq_refl)) as (la & b & Ea).
  destruct IH as (ll & bs & El); [intros; apply H; now right|].
  cbn [for_each]. rewrite Ea, El. unfold bind, ret.
  do 2 eexists. reflexivity.
Qed.

(** [parse_word_entry] returns for every line. *)
Lemma parse_word_entry_returns (line : string) :
  exists log entry, parse_word_entry line = (log, inr entry).
Proof.
  unfold parse_word_entry, parse_remainder, parse_subentries.
  set (subs := split_subentries (remove_word line (find_word line))).
  destruct (for_each_returns (fun s => logging_debug (SUBENTRY s)) subs)
    as (l1 & us & E1); [intros; unfold logging_debug; eauto|].
  destruct (for_each_returns parse_subentry subs) as (l2 & ps & E2).
  { intros sub Hsub. apply split_loop_ends in Hsub.
    destruct Hsub as (l & Hin & He). apply endswith_spec in He.
    destruct He as [pre ->]. now apply parse_subentry_returns. }
  rewrite E1, E2. unfold bind, logging_debug, ret.
  do 2 eexists. reflexivity.
Qed.

End PipelineFacts.

(** ** Properties of the subentry parser *)

(** C1 (the code departs from it): a subentry whose working text, once the
    definition is removed, holds no level code makes [parse_subentry] write
    the LEVEL NOT FOUND record and then raise [UnboundLocalError] on the
    unbound [level], where the claim promises a diagnostic and no exception. *)
Theorem parse_subentry_missing_level_raises (s : string) :
  level_pattern_search (remove_definition s (definition_text s)) = None ->
  parse_subentry s =
  ((definition_log s
    ++ [LEVEL_NOT_FOUND (remove_definition s (definition_text s))])%list,
   inl (UnboundLocalError "level")).
Proof. intros H. rewrite parse_subentry_eq. cbv zeta. now rewrite H. Qed.

Lemma parse_subentry_missing_level_raises_witness :
  level_pattern_search "n." = None
  /\ parse_subentry "n." =
     ([LEVEL_NOT_FOUND "n."], inl (UnboundLocalError "level")).
Proof.
  split; [reflexivity|].
  exact (parse_subentry_missing_level_raises "n." eq_refl).
Defined.

(** C6, as the code has it: the recorded level is the leftmost level code of
    the working text, and line 58 removes that occurrence and every later
    occurrence of the same code before the candidates are split: the parts
    of speech and the unmatched candidates of the log are those of the text
    before the level followed by the text after it with every occurrence of
    the level removed; a later occurrence of the level is removed too. *)
Theorem level_is_first_and_removed_everywhere
  (s : string) (log : list LogRecord) (r : ParsedSubentry) :
  parse_subentry s = (log, inr r) ->
  level_pattern_search (remove_definition s (definition r)) = Some (level r)
  /\ exists pre post,
       remove_definition s (definition r) = pre ++ level r ++ post
       /\ (forall p l q, In l LEVEL_VALUES ->
             remove_definition s (definition r) = p ++ l ++ q ->
             String.length pre <= String.length p)
       /\ remove_level (remove_definition s (definition r)) (level r) =
          strip (pre ++ replace post (level r) "")
       /\ partsOfSpeech r =
          filter in_vocabulary
            (map strip
               (re_split_comma_slash
                  (strip (pre ++ replace post (level r) ""))))
       /\ log =
          (definition_log s
           ++ LEVEL (level r)
           :: map PART_OF_SPEECH_NOT_MATCHED
                (unmatched_candidates
                   (re_split_comma_slash
                      (strip (pre ++ replace post (level r) "")%string)))
           ++ [PART_OF_SPEECH (partsOfSpeech r)])%list
       /\ forall a b,
            post = a ++ level r ++ b ->
            (forall p q, post = p ++ level r ++ q ->
                         String.length a <= String.length p) ->
            partsOfSpeech r =
            filter in_vocabulary
              (map strip
                 (re_split_comma_slash
                    (strip (pre ++ a ++ replace b (level r) "")))).
Proof.
  rewrite parse_subentry_eq. cbv zeta.
  destruct (level_pattern_search _) as [l|] eqn:E; [|discriminate].
  intros [= <- <-]. cbn [definition level partsOfSpeech]. split; [assumption|].
  destruct (level_search_some _ _ E) as [Hin (pre & post & Ht & Hfirst)].
  exists pre, post. split; [assumption|]. split; [assumption|].
  assert (remove_level (remove_definition s (definition_text s)) l
          = strip (pre ++ replace post l "")) as R.
  { unfold remove_level. rewrite Ht at 1.
    rewrite replace_first_occurrence.
    - reflexivity.
    - now apply level_nonempty.
    - intros p q Hp. apply (Hfirst p l q Hin). now rewrite Ht. }
  rewrite R. unfold matched_candidates.
  split; [reflexivity|]. split; [reflexivity|]. split; [reflexivity|].
  intros a b Hab Hfirst'. rewrite Hab at 1.
  rewrite replace_first_occurrence; [reflexivity | now apply level_nonempty |].
  intros p q Hp. apply (Hfirst' p q). now rewrite Hab.
Qed.

Lemma level_is_first_and_removed_everywhere_witness :
  let r := {| definition := ""; partsOfSpeech := ["n."]; level := "B1" |} in
  parse_subentry "n./B1/B1" = ([LEVEL "B1"; PART_OF_SPEECH ["n."]], inr r)
  /\ level_pattern_search (remove_definition "n./B1/B1" (definition r))
     = Some (level r).
Proof.
  intros r. split; [reflexivity|].
  exact (proj1 (level_is_first_and_removed_everywhere "n./B1/B1"
                  [LEVEL "B1"; PART_OF_SPEECH ["n."]] r eq_refl)).
Defined.

(** C6 as stated fails: both occurrences of B1 are removed, so the second one
    is no candidate, where removing the first match only would leave it. *)
Lemma later_level_occurrence_removed :
  level_pattern_search "n./B1/B1" = Some "B1"
  /\ remove_level "n./B1/B1" "B1" = "n.//"
  /\ strip (remove_first "n./B1/B1" "B1") = "n.//B1"
  /\ parse_subentry "n./B1/B1" =
     ([LEVEL "B1"; PART_OF_SPEECH ["n."]],
      inr {| definition := ""; partsOfSpeech := ["n."]; level := "B1" |}).
Proof. repeat split. Qed.

(** C9, with the count the code has: the parts of speech of a parsed
    subentry are exactly the stripped candidates that belong to the
    vocabulary of 20 entries, in the order of the candidates. *)
Theorem parts_of_speech_in_vocabulary
  (s : string) (log : list LogRecord) (r : ParsedSubentry) :
  parse_subentry s = (log, inr r) ->
  Forall (fun p => In p part_of_speech_vocabulary) (partsOfSpeech r)
  /\ partsOfSpeech r =
     filter in_vocabulary
       (map strip
          (re_split_comma_slash
             (remove_level (remove_definition s (definition r)) (level r))))
  /\ List.length part_of_speech_vocabulary = 20
  /\ part_of_speech_vocabulary = map regex_literal PART_OF_SPEECH_VALUES.
Proof.
  rewrite parse_subentry_eq. cbv zeta.
  destruct (level_pattern_search _) as [l|] eqn:E; [|discriminate].
  intros [= _ <-]. cbn [definition level partsOfSpeech].
  split; [|repeat split].
  unfold matched_candidates. apply Forall_forall. intros p Hp.
  apply filter_In in Hp. destruct Hp as [_ Hp].
  unfold in_vocabulary in Hp. apply existsb_exists in Hp.
  destruct Hp as (v & Hv & Heq). apply String.eqb_eq in Heq. now subst.
Qed.

Lemma parts_of_speech_in_vocabulary_witness :
  Forall (fun p => In p part_of_speech_vocabulary) ["adj."; "adv."].
Proof.
  exact (proj1 (parts_of_speech_in_vocabulary "(d) adj., x / adv. B2"
    [DEFINITION "d"; LEVEL "B2"; PART_OF_SPEECH_NOT_MATCHED "x";
     PART_OF_SPEECH ["adj."; "adv."]]
    {| definition := "d"; partsOfSpeech := ["adj."; "adv."]; level := "B2" |}
    eq_refl)).
Defined.

(** C9 as stated fails on the size of the vocabulary: 20 entries, not 21. *)
Lemma vocabulary_has_twenty_entries :
  List.length PART_OF_SPEECH_VALUES = 20
  /\ List.length PART_OF_SPEECH_VALUES <> 21.
Proof. split; [reflexivity | discriminate]. Qed.

(** ** Properties of the splitter *)

(** C3, as the code has it: every raw subentry the splitter emits ends in a
    level code, hence contains at least one. *)
Theorem split_subentries_end_in_level (line sub : string) :
  In sub (split_subentries line) ->
  (exists l pre, In l LEVEL_VALUES /\ sub = pre ++ l)
  /\ 1 <= count_level_codes sub.
Proof.
  intros H. apply split_loop_ends in H. destruct H as (l & Hin & He).
  apply endswith_spec in He. destruct He as [pre ->]. split.
  - now exists l, pre.
  - apply count_level_codes_pos. exists pre, l, "".
    split; [assumption | now rewrite append_nil_r].
Qed.

Lemma split_subentries_end_in_level_witness :
  In "(land) n. A2" (split_subentries "(money) n. B1, (land) n. A2")
  /\ 1 <= count_level_codes "(land) n. A2".
Proof.
  assert (In "(land) n. A2" (split_subentries "(money) n. B1, (land) n. A2"))
    as H by (right; left; reflexivity).
  split; [exact H|].
  exact (proj2 (split_subentries_end_in_level _ _ H)).
Defined.

(** C3 as stated fails: a level code that no comma follows does not split,
    so one emitted subentry holds two level codes. *)
Lemma subentry_with_two_level_codes :
  find_word "w n. A1 v. B1" = "w"
  /\ remove_word "w n. A1 v. B1" "w" = "n. A1 v. B1"
  /\ split_subentries "n. A1 v. B1" = ["n. A1 v. B1"]
  /\ count_level_codes "n. A1 v. B1" = 2.
Proof. repeat split. Qed.

(** C4, as the code has it: wherever a level code followed by a comma stands
    in the remainder, it closes the subentry made of the text carried in
    [subentry_part] at that point, a space and the code; closing does not
    reset the carried text: it is the same after the comma, the candidates
    that follow are processed with it, and a bare level code after the comma
    closes a second subentry with the same text. *)
Theorem split_keeps_carried_text (pre l rest : string) :
  In l LEVEL_VALUES ->
  split_subentries (pre ++ l ++ "," ++ rest) =
  (split_subentries pre
   ++ (subentry_part_after "" (re_split_level_comma pre) ++ " " ++ l)%string
   :: split_loop (subentry_part_after "" (re_split_level_comma pre))
        (re_split_level_comma rest))%list
  /\ subentry_part_after "" (re_split_level_comma (pre ++ l ++ ",")) =
     subentry_part_after "" (re_split_level_comma pre)
  /\ (forall l2, In l2 LEVEL_VALUES ->
         split_subentries (pre ++ l ++ "," ++ " " ++ l2) =
         (split_subentries pre
          ++ [(subentry_part_after "" (re_split_level_comma pre)
               ++ " " ++ l)%string;
              (subentry_part_after "" (re_split_level_comma pre)
               ++ " " ++ l2)%string])%list).
Proof.
  intros Hin.
  assert (forall t,
      split_subentries (pre ++ l ++ "," ++ t) =
      (split_subentries pre
       ++ (subentry_part_after "" (re_split_level_comma pre) ++ " " ++ l)%string
       :: split_loop (subentry_part_after "" (re_split_level_comma pre))
            (re_split_level_comma t))%list) as Hgen.
  { intros t. unfold split_subentries.
    rewrite (re_split_level_comma_app pre l t Hin), split_loop_app.
    now rewrite (split_loop_level _ _ _ Hin). }
  split; [apply Hgen|]. split.
  - change (pre ++ l ++ ",") with (pre ++ l ++ "," ++ "").
    rewrite (re_split_level_comma_app pre l "" Hin), subentry_part_after_app.
    now rewrite (subentry_part_after_level _ _ _ Hin).
  - intros l2 Hin2. rewrite Hgen. do 2 f_equal.
    each_level Hin2 ltac:(reflexivity).
Qed.

Lemma split_keeps_carried_text_witness :
  split_subentries "(d) B1, B2" = ["(d) B1"; "(d) B2"].
Proof.
  refine (proj2 (proj2 (split_keeps_carried_text "(d) " "B1" "" _)) "B2" _).
  - right; right; left; reflexivity.
  - right; right; right; left; reflexivity.
Defined.

(** C4 as stated fails on its own example: the second subentry emitted for
    "(d) B1, B2" starts with the text that precedes the first split. *)
Lemma carried_text_not_reset :
  split_subentries "(d) B1, B2" = ["(d) B1"; "(d) B2"]
  /\ nth 1 (split_subentries "(d) B1, B2") "" <> " B2".
Proof. split; [reflexivity | discriminate]. Qed.

(** C10: when no level code follows the last level code with a comma, the
    trailing text changes nothing: the splitter emits the same subentries,
    and the log and the result are those of the line cut after that comma. *)
Theorem trailing_text_discarded (pre l tail : string) :
  In l LEVEL_VALUES ->
  level_pattern_search tail = None ->
  split_subentries (pre ++ l ++ "," ++ tail) = split_subentries (pre ++ l ++ ",")
  /\ parse_remainder (pre ++ l ++ "," ++ tail) = parse_remainder (pre ++ l ++ ",").
Proof.
  intros Hin Htail.
  assert (split_subentries (pre ++ l ++ "," ++ tail)
          = split_subentries (pre ++ l ++ ",")) as H.
  { unfold split_subentries.
    change (pre ++ l ++ ",") with (pre ++ l ++ "," ++ "").
    rewrite !(re_split_level_comma_app pre l _ Hin).
    rewrite (re_split_no_level _ Htail).
    apply split_loop_trailing; assumption. }
  split; [exact H|]. unfold parse_remainder. now rewrite H.
Qed.

Lemma trailing_text_discarded_witness :
  split_subentries "(d) B1, junk" = split_subentries "(d) B1,"
  /\ parse_remainder "(d) B1, junk" = parse_remainder "(d) B1,".
Proof.
  refine (trailing_text_discarded "(d) " "B1" " junk" _ eq_refl).
  right; right; left; reflexivity.
Defined.

(** C7, as the code has it: a remainder without level code gives no raw
    subentry and nothing is parsed or logged for it; a line with such a
    remainder is parsed without exception into an entry with no subentry, and
    its log holds the three trace records only, none of which is a
    diagnostic. *)
Theorem no_level_no_subentry (remainder : string) :
  level_pattern_search remainder = None ->
  split_subentries remainder = []
  /\ parse_remainder remainder = ([], inr [])
  /\ forall line,
       remove_word line (find_word line) = remainder ->
       parse_word_entry line =
       ([BEGIN_PARSING_WORD_ENTRY line; FOUND_WORD (find_word line);
         LINE_AFTER_REMOVING_WORD remainder],
        inr {| wordForms := find_word line; subentries := [] |})
       /\ diagnostics (fst (parse_word_entry line)) = [].
Proof.
  intros H.
  assert (split_subentries remainder = []) as Hs.
  { unfold split_subentries. rewrite (re_split_no_level _ H).
    now rewrite (split_loop_text _ _ _ H). }
  assert (parse_remainder remainder = ([], inr [])) as Hr.
  { unfold parse_remainder. now rewrite Hs. }
  split; [exact Hs|]. split; [exact Hr|]. intros line E.
  assert (parse_word_entry line =
       ([BEGIN_PARSING_WORD_ENTRY line; FOUND_WORD (find_word line);
         LINE_AFTER_REMOVING_WORD remainder],
        inr {| wordForms := find_word line; subentries := [] |})) as Hp.
  { unfold parse_word_entry. rewrite E, Hr. reflexivity. }
  split; [exact Hp | now rewrite Hp].
Qed.

Lemma no_level_no_subentry_witness :
  parse_word_entry "w (d) junk" =
  ([BEGIN_PARSING_WORD_ENTRY "w (d) junk"; FOUND_WORD "w";
    LINE_AFTER_REMOVING_WORD "(d) junk"],
   inr {| wordForms := "w"; subentries := [] |}).
Proof.
  exact (proj1 (proj2 (proj2 (no_level_no_subentry "(d) junk" eq_refl))
                 "w (d) junk" eq_refl)).
Defined.

(** C7 as stated fails: for a remainder without level code the log holds no
    diagnostic, EmptySubentryList or other. *)
Lemma no_empty_subentry_list_diagnostic :
  level_pattern_search (remove_word "w (d) junk" (find_word "w (d) junk")) = None
  /\ diagnostics (fst (parse_word_entry "w (d) junk")) = []
  /\ ~ In EmptySubentryList (diagnostics (fst (parse_word_entry "w (d) junk"))).
Proof. repeat split. intros []. Qed.

(** ** Properties of the scanner and of the whole line *)

Section ScannerFacts.

Lemma lstrip_length (s : string) : String.length (lstrip s) <= String.length s.
Proof.
  induction s as [|c s IH]; simpl; [lia|].
  destruct (is_space c); simpl; lia.
Qed.


End ScannerFacts.

(** C2: the line of the example gives the word "bank" and its two parsed
    subentries, in order, without exception. *)
Theorem bank_example :
  parse_word_entry "bank (money) n. B1, (land) n. A2" =
  ([BEGIN_PARSING_WORD_ENTRY "bank (money) n. B1, (land) n. A2";
    FOUND_WORD "bank";
    LINE_AFTER_REMOVING_WORD "(money) n. B1, (land) n. A2";
    SUBENTRY "(money) n. B1"; SUBENTRY "(land) n. A2";
    DEFINITION "money"; LEVEL "B1"; PART_OF_SPEECH ["n."];
    DEFINITION "land"; LEVEL "A2"; PART_OF_SPEECH ["n."]],
   inr {| wordForms := "bank";
          subentries :=
            [ {| definition := "money"; partsOfSpeech := ["n."]; level := "B1" |};
              {| definition := "land"; partsOfSpeech := ["n."]; level := "A2" |} ]
       |}).
Proof. vm_compute. reflexivity. Qed.

(** C5, as the code has it: the word starts the line, and the remainder is
    the text after it with every occurrence of the word removed, trimmed; an
    occurrence of the word later in the line is removed as well. *)
Theorem remainder_removes_every_occurrence (line : string) :
  exists rest,
    line = find_word line ++ rest
    /\ remove_word line (find_word line) =
       strip (replace rest (find_word line) "")
    /\ forall a b,
         find_word line <> "" ->
         rest = a ++ find_word line ++ b ->
         (forall p q, rest = p ++ find_word line ++ q ->
                      String.length a <= String.length p) ->
         remove_word line (find_word line) =
         strip (a ++ replace b (find_word line) "").
Proof.
  destruct (find_word_prefix line) as [rest E]. exists rest.
  assert (remove_word line (find_word line) =
          strip (replace rest (find_word line) "")) as H.
  { unfold remove_word. rewrite E at 1.
    destruct (find_word line) as [|c w] eqn:W.
    - cbn [append]. now rewrite !replace_empty_by_empty.
    - rewrite replace_prefix; [reflexivity | discriminate]. }
  split; [exact E|]. split; [exact H|].
  intros a b Hne Hab Hfirst. rewrite H. rewrite Hab at 1.
  rewrite replace_first_occurrence; [reflexivity | assumption |].
  intros p q Hp. apply (Hfirst p q). now rewrite Hab.
Qed.

Lemma remainder_removes_every_occurrence_witness :
  remove_word "a (a) n. A1" (find_word "a (a) n. A1") =
  strip (" (" ++ replace ") n. A1" (find_word "a (a) n. A1") "").
Proof.
  destruct (remainder_removes_every_occurrence "a (a) n. A1")
    as (rest & E & _ & H).
  apply (H " (" ") n. A1").
  - discriminate.
  - change (find_word "a (a) n. A1") with "a" in *.
    injection E as E. now subst.
  - change (find_word "a (a) n. A1") with "a" in *.
    injection E as E. subst rest.
    intros [|x [|y p]] q Hp; simpl; try lia; discriminate.
Defined.

(** C5 as stated fails: the second "a" of the line is removed too, where
    removing the first match only would keep it. *)
Lemma later_word_occurrence_removed :
  find_word "a (a) n. A1" = "a"
  /\ remove_word "a (a) n. A1" "a" = "() n. A1"
  /\ strip (remove_first "a (a) n. A1" "a") = "(a) n. A1".
Proof. repeat split. Qed.

Section TrimmedLineFacts.




End TrimmedLineFacts.



(** * Further properties of the module *)

(** ** Results of [parse_subentry] and [parse_word_entry] *)

Section ResultFacts.

Lemma all_chars_app (f : ascii -> bool) (a b : string) :
  all_chars f (a ++ b) = all_chars f a && all_chars f b.
Proof.
  induction a as [|c a IH]; [reflexivity|].
  cbn [append all_chars]. now rewrite IH, andb_assoc.
Qed.

Lemma hd_cons_head (c : ascii) (l : list string) :
  hd "" (cons_head c l) = String c (hd "" l).
Proof. now destruct l. Qed.

(** The first piece of a split holds no separator and keeps what holds for
    all characters of the text. *)
Lemma split_by_hd_chars (f g : ascii -> bool) (s : string) :
  all_chars g s = true ->
  all_chars (fun c => negb (f c) && g c) (hd "" (split_by f s)) = true.
Proof.
  induction s as [|c s IH]; [reflexivity|].
  cbn [all_chars split_by]. intros H. apply andb_true_iff in H.
  destruct H as [Hc Hs]. destruct (f c) eqn:F; [reflexivity|].
  rewrite hd_cons_head. cbn [all_chars]. now rewrite F, Hc, IH.
Qed.

Lemma split_by_tl_hd_chars (f : ascii -> bool) (s : string) :
  all_chars (fun c => negb (f c)) (hd "" (tl (split_by f s))) = true.
Proof.
  induction s as [|c s IH]; [reflexivity|].
  cbn [split_by]. destruct (f c).
  - cbn [tl]. pose proof (split_by_hd_chars f (fun _ => true) s) as H.
    erewrite <- H; [|clear; induction s; simpl; auto].
    clear. induction (hd "" (split_by f s)) as [|x t IHt]; [reflexivity|].
    cbn [all_chars]. now rewrite andb_true_r, IHt.
  - destruct (split_by f s) as [|p ps]; [reflexivity | exact IH].
Qed.

Lemma definition_text_no_paren (s : string) :
  all_chars (fun c => negb (is_paren c)) (definition_text s) = true.
Proof.
  unfold definition_text. destruct (startswith s "("); [|reflexivity].
  unfold split.
  pose proof (split_by_hd_chars (Ascii.eqb ")")
                (fun c => negb (Ascii.eqb "(" c))
                (hd "" (tl (split_by (Ascii.eqb "(") s)))
                (split_by_tl_hd_chars _ s)) as H.
  revert H. generalize (hd "" (split_by (Ascii.eqb ")")
                                 (hd "" (tl (split_by (Ascii.eqb "(") s))))).
  intros t. induction t as [|c t IH]; [reflexivity|].
  cbn [all_chars]. intros H. apply andb_true_iff in H. destruct H as [Hc Ht].
  rewrite (IH Ht), andb_true_r. unfold is_paren.
  rewrite (Ascii.eqb_sym c "("), (Ascii.eqb_sym c ")").
  apply andb_true_iff in Hc. destruct Hc as [H1 H2].
  apply negb_true_iff in H1, H2. now rewrite H1, H2.
Qed.

Lemma for_each_inr {A B : Type} (f : A -> M B) (l : list A)
      (log : list LogRecord) (bs : list B) :
  for_each f l = (log, inr bs) ->
  Forall2 (fun a b => exists la, f a = (la, inr b)) l bs.
Proof.
  revert log bs. induction l as [|a l IH]; intros log bs.
  - intros [= _ <-]. constructor.
  - cbn [for_each]. unfold bind at 1.
    destruct (f a) as [la [e|b]] eqn:Ea; [discriminate|].
    unfold bind at 1. destruct (for_each f l) as [ll [e|bs']] eqn:El;
      [discriminate|].
    cbn. intros [= _ <-]. constructor; [eauto | eapply IH; reflexivity].
Qed.

End ResultFacts.

(** X1: whenever [parse_subentry] returns, the level is one of the six
    codes, and the definition holds no parenthesis. *)
Theorem parsed_subentry_invariants
  (s : string) (log : list LogRecord) (r : ParsedSubentry) :
  parse_subentry s = (log, inr r) ->
  In (level r) LEVEL_VALUES
  /\ all_chars (fun c => negb (is_paren c)) (definition r) = true.
Proof.
  rewrite parse_subentry_eq. cbv zeta.
  destruct (level_pattern_search _) as [l|] eqn:E; [|discriminate].
  intros [= _ <-]. cbn [level definition]. split.
  - exact (proj1 (level_search_some _ _ E)).
  - apply definition_text_no_paren.
Qed.

Lemma parsed_subentry_invariants_witness :
  In "B2" LEVEL_VALUES
  /\ all_chars (fun c => negb (is_paren c)) "a" = true.
Proof.
  exact (parsed_subentry_invariants "(a(b) adj. B2"
           [DEFINITION "a"; LEVEL "B2"; PART_OF_SPEECH_NOT_MATCHED "(a(b) adj.";
            PART_OF_SPEECH []]
           {| definition := "a"; partsOfSpeech := []; level := "B2" |}
           eq_refl).
Defined.

(** X2: [parse_word_entry] raises for no line: it returns an entry whose
    word is the scanned word and which holds one parsed subentry for every
    raw subentry of the splitter, in the same order. *)
Theorem parse_word_entry_total (line : string) :
  exists log parsed,
    parse_word_entry line =
    (log, inr {| wordForms := find_word line; subentries := parsed |})
    /\ Forall2 (fun raw p => exists l, parse_subentry raw = (l, inr p))
         (split_subentries (remove_word line (find_word line))) parsed.
Proof.
  destruct (parse_word_entry_returns line) as (log & entry & E).
  exists log, (subentries entry).
  unfold parse_word_entry, parse_remainder, parse_subentries in *.
  set (subs := split_subentries (remove_word line (find_word line))) in *.
  destruct (for_each_returns (fun s => logging_debug (SUBENTRY s)) subs)
    as (l1 & us & E1); [intros; unfold logging_debug; eauto|].
  rewrite E1 in *.
  destruct (for_each parse_subentry subs) as [l2 [e|ps]] eqn:E2.
  - exfalso. revert E. unfold bind, logging_debug, ret. discriminate.
  - revert E. unfold bind, logging_debug, ret. cbn.
    intros [= <- <-]. cbn [subentries]. split; [reflexivity|].
    eapply for_each_inr. exact E2.
Qed.

(** X3: in a returned parse every non-empty stripped candidate is accounted
    for: it is reported as not matched exactly when it lies outside the
    vocabulary, and it is among the parts of speech exactly when it lies in
    it. *)
Theorem candidates_kept_or_reported
  (s : string) (log : list LogRecord) (r : ParsedSubentry) (c : string) :
  parse_subentry s = (log, inr r) ->
  c <> "" ->
  In c (map strip
          (re_split_comma_slash
             (remove_level (remove_definition s (definition r)) (level r)))) ->
  (in_vocabulary c = true /\ In c (partsOfSpeech r)
   /\ ~ In (PART_OF_SPEECH_NOT_MATCHED c) log)
  \/ (in_vocabulary c = false /\ ~ In c (partsOfSpeech r)
      /\ In (PART_OF_SPEECH_NOT_MATCHED c) log).
Proof.
  rewrite parse_subentry_eq. cbv zeta.
  destruct (level_pattern_search _) as [l|] eqn:E; [|discriminate].
  intros [= <- <-]. cbn [definition level partsOfSpeech].
  set (cands := map strip _). intros Hne Hin.
  assert (forall x, In (PART_OF_SPEECH_NOT_MATCHED x)
            (definition_log s
             ++ LEVEL l
             :: map PART_OF_SPEECH_NOT_MATCHED
                  (filter (fun c => negb (c =? "") && negb (in_vocabulary c))
                     cands)
             ++ [PART_OF_SPEECH (filter in_vocabulary cands)])%list
          <-> In x (filter (fun c => negb (c =? "") && negb (in_vocabulary c))
                      cands)) as Hlog.
  { intros x. rewrite in_app_iff. cbn [In]. rewrite in_app_iff, in_map_iff.
    cbn [In]. split.
    - intros [H | [H | [(y & [= ->] & Hy) | [H | []]]]];
        try discriminate; [|assumption].
      unfold definition_log in H. destruct (startswith s "("); [|contradiction].
      destruct H as [H | []]. discriminate.
    - intros H. right. right. left. now exists x. }
  unfold matched_candidates, unmatched_candidates. fold cands.
  rewrite Hlog, !filter_In.
  apply String.eqb_neq in Hne.
  destruct (in_vocabulary c) eqn:V; [left | right]; rewrite Hne; cbn;
    intuition congruence.
Qed.

Lemma candidates_kept_or_reported_witness :
  In (PART_OF_SPEECH_NOT_MATCHED "x")
     [DEFINITION "d"; LEVEL "B2"; PART_OF_SPEECH_NOT_MATCHED "x";
      PART_OF_SPEECH ["adj."; "adv."]].
Proof.
  destruct (candidates_kept_or_reported "(d) adj., x / adv. B2"
    [DEFINITION "d"; LEVEL "B2"; PART_OF_SPEECH_NOT_MATCHED "x";
     PART_OF_SPEECH ["adj."; "adv."]]
    {| definition := "d"; partsOfSpeech := ["adj."; "adv."]; level := "B2" |}
    "x" eq_refl) as [[V _] | (_ & _ & H)].
  - discriminate.
  - right; left; reflexivity.
  - discriminate V.
  - exact H.
Defined.

(** ** The scanner *)

Section BoundaryFacts.

Lemma join_app_nonempty (sep p : string) (xs tl : list string) :
  tl <> [] ->
  join sep (p :: (xs ++ tl)%list) = join sep (p :: xs) ++ sep ++ join sep tl.
Proof.
  intros Hne. revert p. induction xs as [|x xs IH]; intros p.
  - destruct tl as [|t tl]; [congruence | reflexivity].
  - cbn [app]. rewrite !join_cons, IH. now rewrite !append_assoc.
Qed.

(** The scan either takes every part or stops in front of parts whose join
    starts a definition or a part of speech. *)
Lemma scan_word_parts_stop (parts : list string) :
  scan_word_parts parts = parts
  \/ exists tl,
      tl <> [] /\ parts = (scan_word_parts parts ++ tl)%list
      /\ (start_with_definition_pattern_match (join " " tl) = true
          \/ start_with_part_of_speech_pattern_match (join " " tl) = true).
Proof.
  induction parts as [|p parts IH]; [now left|].
  cbn [scan_word_parts].
  destruct (start_with_definition_pattern_match (join " " (p :: parts))) eqn:D.
  { right. exists (p :: parts). repeat split; [discriminate | now left]. }
  destruct (start_with_part_of_speech_pattern_match (join " " (p :: parts))) eqn:P.
  { right. exists (p :: parts). repeat split; [discriminate | now right]. }
  destruct IH as [IH | (tl & Hne & E & Hm)].
  - left. now rewrite IH.
  - right. exists tl. repeat split; [assumption | | assumption].
    cbn [app]. now rewrite <- E.
Qed.

End BoundaryFacts.

(** X4: when the word is not the whole line, the line goes on after the
    word with a space and a text that starts a definition (an opening
    parenthesis closed before any line feed) or a part-of-speech marker. *)
Theorem word_ends_at_boundary (line : string) :
  find_word line <> line ->
  exists rest,
    line = find_word line ++ " " ++ rest
    /\ (start_with_definition_pattern_match rest = true
        \/ start_with_part_of_speech_pattern_match rest = true).
Proof.
  intros Hne. pose proof (join_split " " line) as J. unfold find_word in *.
  destruct (split line " ") as [|p ps] eqn:E.
  - simpl in J. subst line. now contradiction Hne.
  - destruct (scan_word_parts_stop ps) as [H | (tl & Hn & Hps & Hm)].
    + rewrite H in Hne. now contradiction Hne.
    + exists (join " " tl). split; [|assumption].
      rewrite <- J at 1. rewrite Hps at 1. now apply join_app_nonempty.
Qed.

Lemma word_ends_at_boundary_witness :
  exists rest,
    "all right adj. A2" = find_word "all right adj. A2" ++ " " ++ rest
    /\ (start_with_definition_pattern_match rest = true
        \/ start_with_part_of_speech_pattern_match rest = true).
Proof.
  apply word_ends_at_boundary. discriminate.
Defined.

(** X5: when the scan finds no boundary the word is the whole line; then
    nothing is left of the line, no subentry is parsed and the log holds no
    record about the missing boundary. *)
Theorem no_boundary_empty_remainder (line : string) :
  find_word line = line ->
  remove_word line (find_word line) = ""
  /\ parse_word_entry line =
     ([BEGIN_PARSING_WORD_ENTRY line; FOUND_WORD line;
       LINE_AFTER_REMOVING_WORD ""],
      inr {| wordForms := line; subentries := [] |}).
Proof.
  intros H.
  assert (remove_word line line = "") as R.
  { unfold remove_word. destruct line as [|c line]; [reflexivity|].
    rewrite <- (append_nil_r (String c line)) at 1.
    rewrite replace_prefix; [reflexivity | discriminate]. }
  rewrite H. split; [exact R|].
  unfold parse_word_entry. rewrite H, R. reflexivity.
Qed.

Lemma no_boundary_empty_remainder_witness :
  parse_word_entry "hello world" =
  ([BEGIN_PARSING_WORD_ENTRY "hello world"; FOUND_WORD "hello world";
    LINE_AFTER_REMOVING_WORD ""],
   inr {| wordForms := "hello world"; subentries := [] |}).
Proof. exact (proj2 (no_boundary_empty_remainder "hello world" eq_refl)). Defined.

(** ** The splitter on comma-terminated subentries *)

(** X6: for a remainder made of texts without level code, none blank, each
    closed by a level code and a comma, the splitter emits one subentry per
    text, in order: the stripped text, one space and the level code. *)
Theorem split_comma_terminated (items : list (string * string)) :
  Forall (fun item => level_pattern_search (fst item) = None
                      /\ strip (fst item) <> ""
                      /\ In (snd item) LEVEL_VALUES) items ->
  split_subentries (comma_terminated items) =
  map (fun item => strip (fst item) ++ " " ++ snd item) items.
Proof.
  intros H. unfold split_subentries.
  assert (forall part,
             split_loop part (re_split_level_comma (comma_terminated items)) =
             map (fun item => strip (fst item) ++ " " ++ snd item) items)
    as G; [|apply G].
  induction H as [|[text l] items (Ht & Hne & Hl) _ IH]; intros part;
    [reflexivity|].
  cbn [fst snd] in *. cbn [comma_terminated map fst snd].
  rewrite (re_split_level_comma_app text l _ Hl), (re_split_no_level _ Ht).
  cbn [app]. rewrite (split_loop_text _ _ _ Ht).
  apply String.eqb_neq in Hne. rewrite Hne.
  rewrite (split_loop_level _ _ _ Hl). f_equal. apply IH.
Qed.

Lemma split_comma_terminated_witness :
  split_subentries "(money) n.  B1,  (land) n.A2," =
  ["(money) n. B1"; "(land) n. A2"].
Proof.
  refine (split_comma_terminated
            [("(money) n.  ", "B1"); ("  (land) n.", "A2")] _).
  repeat (apply Forall_cons || apply Forall_nil); cbn [fst snd];
    (split; [reflexivity | split; [discriminate | simpl; tauto]]).
Defined.

(** ** [main] *)

Lemma parse_word_entry_word (line : string) (log : list LogRecord) (e : Entry) :
  parse_word_entry line = (log, inr e) -> wordForms e = find_word line.
Proof.
  unfold parse_word_entry.
  destruct (parse_remainder (remove_word line (find_word line)))
    as [l [x|parsed]]; unfold bind, logging_debug, ret; cbn;
    [discriminate|].
  now intros [= _ <-].
Qed.

(** X7: once the lines are read, [main] raises for no list of lines, and it
    handles the lines one by one in order: one entry per line, whose word is
    the scanned word of that line. *)
Theorem main_total (oxford_list : list string) :
  exists log entries,
    main oxford_list = (log, inr entries)
    /\ Forall2 (fun line entry =>
                  wordForms entry = find_word line
                  /\ exists l, parse_word_entry line = (l, inr entry))
         oxford_list entries.
Proof.
  unfold main.
  destruct (for_each_returns parse_word_entry oxford_list) as (log & es & E).
  { intros line _. apply parse_word_entry_returns. }
  exists log, es. split; [exact E|].
  apply for_each_inr in E.
  induction E as [|line entry ls es' [l Hl] _ IH]; constructor; [|exact IH].
  split; [exact (parse_word_entry_word _ _ _ Hl) | eauto].
Qed.

(** ** Well-formed subentries and lines are recovered *)

Section RoundTripFacts.

Lemma vocabulary_good_tags (p : string) :
  In p part_of_speech_vocabulary -> good_tag p = true.
Proof.
  assert (forallb good_tag part_of_speech_vocabulary = true) as H
      by (vm_compute; reflexivity).
  intros Hin. exact (proj1 (forallb_forall _ _) H p Hin).
Qed.

Lemma good_tag_facts (p : string) :
  good_tag p = true ->
  all_chars tag_char p = true /\ lstrip p = p /\ rstrip p = p /\ p <> "".
Proof.
  unfold good_tag. rewrite !andb_true_iff, !String.eqb_eq, negb_true_iff.
  rewrite String.eqb_neq. tauto.
Qed.

Lemma all_chars_weaken (f g : ascii -> bool) (s : string) :
  (forall c, f c = true -> g c = true) ->
  all_chars f s = true -> all_chars g s = true.
Proof.
  intros W. induction s as [|c s IH]; [reflexivity|].
  cbn [all_chars]. rewrite !andb_true_iff. intros [Hc Hs]. auto.
Qed.

Lemma all_chars_join (f : ascii -> bool) (sep : string) (ps : list string) :
  all_chars f sep = true ->
  Forall (fun p => all_chars f p = true) ps ->
  all_chars f (join sep ps) = true.
Proof.
  intros Hsep H. induction H as [|p ps Hp _ IH]; [reflexivity|].
  destruct ps as [|q ps]; [exact Hp|].
  rewrite join_cons, !all_chars_app, Hp, Hsep. exact IH.
Qed.

(** No level code starts at a character that is not A, B or C. *)
Lemma find_level_other_char (c : ascii) (s : string) :
  level_free_char c = true ->
  find (fun l => prefix l (String c s)) LEVEL_VALUES = None.
Proof.
  unfold level_free_char. rewrite negb_true_iff, !orb_false_iff.
  intros ((((HA & HB) & HC) & _) & _).
  cbn [find LEVEL_VALUES]. rewrite !prefix_cons.
  rewrite (Ascii.eqb_sym "A" c), (Ascii.eqb_sym "B" c), (Ascii.eqb_sym "C" c).
  now rewrite HA, HB, HC.
Qed.

Lemma level_search_skip (pre t : string) :
  all_chars level_free_char pre = true ->
  level_pattern_search (pre ++ t) = level_pattern_search t.
Proof.
  induction pre as [|c pre IH]; [reflexivity|].
  cbn [all_chars append level_pattern_search]. rewrite andb_true_iff.
  intros [Hc Hp]. now rewrite (find_level_other_char c _ Hc), IH.
Qed.

(** A replaced text that starts with a character absent from [pre] is not
    found inside [pre]. *)
Lemma replace_from_skip_absent (o : ascii) (old new pre t : string) :
  all_chars (fun c => negb (Ascii.eqb c o)) pre = true ->
  replace_from (String o old) new 0 (pre ++ t) =
  pre ++ replace_from (String o old) new 0 t.
Proof.
  induction pre as [|c pre IH]; [reflexivity|].
  cbn [all_chars]. rewrite andb_true_iff, negb_true_iff. intros [Hc Hp].
  change (String c pre ++ t) with (String c (pre ++ t)).
  rewrite replace_from_no_match.
  - cbn [append]. now rewrite IH.
  - rewrite prefix_cons, Ascii.eqb_sym, Hc. reflexivity.
Qed.

Lemma lstrip_keeps_prefix (p t : string) :
  p <> "" -> lstrip p = p -> lstrip (p ++ t) = p ++ t.
Proof.
  destruct p as [|c p]; [congruence|]. intros _ H. simpl in *.
  destruct (is_space c); [|reflexivity].
  pose proof (lstrip_length p) as L. rewrite H in L. simpl in L. lia.
Qed.

Lemma rstrip_drops_space (s : string) : rstrip (s ++ " ") = rstrip s.
Proof.
  induction s as [|c s IH]; [reflexivity|].
  cbn [append rstrip]. now rewrite IH.
Qed.

Lemma split_by_no_sep (f : ascii -> bool) (s : string) :
  all_chars (fun c => negb (f c)) s = true -> split_by f s = [s].
Proof.
  induction s as [|c s IH]; [reflexivity|].
  cbn [all_chars split_by]. rewrite andb_true_iff, negb_true_iff.
  intros [Hc Hs]. now rewrite Hc, (IH Hs).
Qed.

Lemma split_by_app_sep (f : ascii -> bool) (p t : string) (c : ascii) :
  all_chars (fun c => negb (f c)) p = true -> f c = true ->
  split_by f (p ++ String c t) = p :: split_by f t.
Proof.
  intros Hp Hc. induction p as [|x p IH].
  - cbn [append split_by]. now rewrite Hc.
  - cbn [all_chars] in Hp. apply andb_true_iff in Hp. destruct Hp as [Hx Hp].
    apply negb_true_iff in Hx. cbn [append split_by]. now rewrite Hx, (IH Hp).
Qed.

Lemma map_strip_cons_space (l : list string) :
  l <> [] -> map strip (cons_head " " l) = map strip l.
Proof. destruct l; [congruence | reflexivity]. Qed.

(** The candidates of a list of tags written with ", " are the tags. *)
Lemma candidates_of_tags (tags : list string) :
  tags <> [] ->
  Forall (fun p => good_tag p = true) tags ->
  map strip (re_split_comma_slash (join ", " tags)) = tags.
Proof.
  intros Hne H. unfold re_split_comma_slash.
  induction H as [|p ps Hp Hps IH]; [congruence|].
  destruct (good_tag_facts p Hp) as (Hc & Hl & Hr & Hn).
  assert (all_chars (fun c => negb (Ascii.eqb c "," || Ascii.eqb c "/")) p
          = true) as Hsep.
  { revert Hc. apply all_chars_weaken. intros c. unfold tag_char.
    rewrite andb_true_iff, !negb_true_iff, !orb_false_iff.
    intros (_ & ((_ & Hcomma) & Hslash) & _). now rewrite Hcomma, Hslash. }
  assert (strip p = p) as Hs by (unfold strip; now rewrite Hl, Hr).
  destruct ps as [|q ps].
  - cbn [join String.concat]. rewrite (split_by_no_sep _ _ Hsep).
    cbn [map]. now rewrite Hs.
  - rewrite join_cons.
    change (", " ++ join ", " (q :: ps))
      with (String "," (String " " (join ", " (q :: ps)))).
    rewrite (split_by_app_sep _ p _ ","%char Hsep eq_refl). cbn [map split_by].
    change ((" " =? ",")%char || (" " =? "/")%char) with false.
    cbv iota. rewrite Hs, map_strip_cons_space.
    + f_equal. apply IH. discriminate.
    + destruct (split_by_nonempty
                  (fun c => Ascii.eqb c "," || Ascii.eqb c "/")
                  (join ", " (q :: ps))) as (x & xs & E).
      rewrite E. discriminate.
Qed.

Lemma tags_chars (tags : list string) :
  Forall (fun p => good_tag p = true) tags ->
  all_chars (fun c => level_free_char c && negb (Ascii.eqb c "("))
            (join ", " tags ++ " ") = true.
Proof.
  intros H. rewrite all_chars_app, andb_true_iff. split; [|reflexivity].
  apply all_chars_join; [reflexivity|].
  eapply Forall_impl; [|exact H]. intros p Hp.
  destruct (good_tag_facts p Hp) as (Hc & _). revert Hc.
  apply all_chars_weaken. intros c. unfold tag_char.
  rewrite !andb_true_iff, !negb_true_iff, !orb_false_iff.
  intros (-> & ((-> & _) & _) & _). now split.
Qed.

Lemma strip_tags (tags : list string) :
  tags <> [] ->
  Forall (fun p => good_tag p = true) tags ->
  join ", " tags <> ""
  /\ lstrip (join ", " tags) = join ", " tags
  /\ rstrip (join ", " tags) = join ", " tags.
Proof.
  intros Hne H. induction H as [|p ps Hp Hps IH]; [congruence|].
  destruct (good_tag_facts p Hp) as (_ & Hl & Hr & Hn).
  destruct ps as [|q ps]; [now cbn [join String.concat]|].
  destruct IH as (In & Il & Ir); [discriminate|].
  rewrite join_cons. repeat split.
  - destruct p; [congruence | discriminate].
  - now apply lstrip_keeps_prefix.
  - rewrite <- append_assoc. now apply rstrip_keeps_suffix.
Qed.

(** What [parse_subentry] finds in tags followed by a level code. *)
Lemma tags_and_level_parsed (tags : list string) (l : string) :
  tags <> [] ->
  Forall (fun p => In p part_of_speech_vocabulary) tags ->
  In l LEVEL_VALUES ->
  strip (tags_and_level tags l) = tags_and_level tags l
  /\ level_pattern_search (tags_and_level tags l) = Some l
  /\ matched_candidates
       (re_split_comma_slash (remove_level (tags_and_level tags l) l)) = tags
  /\ unmatched_candidates
       (re_split_comma_slash (remove_level (tags_and_level tags l) l)) = [].
Proof.
  intros Hne Hv Hl.
  assert (Forall (fun p => good_tag p = true) tags) as Hg
      by (eapply Forall_impl; [|exact Hv]; apply vocabulary_good_tags).
  destruct (strip_tags tags Hne Hg) as (Jn & Jl & Jr).
  pose proof (tags_chars tags Hg) as Hc.
  assert (all_chars level_free_char (join ", " tags ++ " ") = true) as Hf.
  { revert Hc. apply all_chars_weaken. intros c.
    rewrite andb_true_iff. tauto. }
  unfold tags_and_level.
  assert (rstrip l = l) as Hrl by each_level Hl ltac:(reflexivity).
  assert (level_pattern_search l = Some l) as Hsl
      by each_level Hl ltac:(reflexivity).
  split; [|split].
  - unfold strip. rewrite (lstrip_keeps_prefix _ _ Jn Jl).
    rewrite <- append_assoc.
    apply rstrip_keeps_suffix; [now apply level_nonempty | assumption].
  - rewrite <- append_assoc, (level_search_skip _ _ Hf). exact Hsl.
  - assert (remove_level (join ", " tags ++ " " ++ l) l = join ", " tags) as R.
    { unfold remove_level, replace.
      destruct (level_shape l Hl) as (a & b & -> & _).
      rewrite <- append_assoc, replace_from_skip_absent.
      - rewrite <- (append_nil_r (String a (String b ""))) at 2.
        rewrite replace_from_match by discriminate.
        cbn [append replace_from]. rewrite append_nil_r.
        unfold strip. rewrite (lstrip_keeps_prefix _ _ Jn Jl).
        now rewrite rstrip_drops_space.
      - revert Hf. apply all_chars_weaken. intros c. unfold level_free_char.
        rewrite !negb_true_iff, !orb_false_iff.
        intros ((((HA & HB) & HC) & _) & _).
        simpl in Hl.
        repeat (destruct Hl as [[= <- <-] | Hl]; [assumption|]).
        contradiction. }
    rewrite R. unfold matched_candidates, unmatched_candidates.
    rewrite (candidates_of_tags tags Hne Hg).
    assert (Forall (fun p => in_vocabulary p = true) tags) as Hin.
    { eapply Forall_impl; [|exact Hv]. intros p Hp. unfold in_vocabulary.
      apply existsb_exists. exists p. split; [assumption | apply String.eqb_refl]. }
    clear - Hin. split.
    + induction Hin as [|p ps Hp _ IH]; [reflexivity|].
      cbn [filter]. now rewrite Hp, IH.
    + induction Hin as [|p ps Hp _ IH]; [reflexivity|].
      cbn [filter]. rewrite Hp, andb_false_r. exact IH.
Qed.

Lemma prefix_nil (s : string) : prefix "" s = true.
Proof. now destruct s. Qed.

Lemma hd_split_paren (d t : string) :
  all_chars (fun c => negb (is_paren c)) d = true ->
  hd "" (split_by (Ascii.eqb ")")
           (hd "" (split_by (Ascii.eqb "(") (d ++ String ")" t)))) = d.
Proof.
  induction d as [|c d IH]; intros H.
  - cbn [append split_by]. change (Ascii.eqb "(" ")") with false. cbv iota.
    rewrite hd_cons_head. reflexivity.
  - cbn [all_chars] in H. apply andb_true_iff in H. destruct H as [Hc Hd].
    unfold is_paren in Hc. apply negb_true_iff, orb_false_iff in Hc.
    destruct Hc as [H1 H2]. cbn [append split_by].
    rewrite (Ascii.eqb_sym "(" c), H1, hd_cons_head. cbn [split_by].
    rewrite (Ascii.eqb_sym ")" c), H2, hd_cons_head. now rewrite (IH Hd).
Qed.

(** The definition of a subentry that opens with a parenthesised text. *)
Lemma definition_text_of_paren (d t : string) :
  all_chars (fun c => negb (is_paren c)) d = true ->
  definition_text ("(" ++ d ++ ")" ++ t) = d.
Proof.
  intros H. unfold definition_text, startswith, split.
  change ("(" ++ d ++ ")" ++ t) with (String "(" (d ++ String ")" t)).
  rewrite prefix_cons. cbn [Ascii.eqb Bool.eqb andb prefix split_by tl].
  rewrite prefix_nil. now apply hd_split_paren.
Qed.

Lemma level_rstrip (l : string) : In l LEVEL_VALUES -> rstrip l = l.
Proof. intros H. each_level H ltac:(reflexivity). Qed.

Lemma level_chars (l : string) :
  In l LEVEL_VALUES -> all_chars (fun c => negb (Ascii.eqb c "(")) l = true.
Proof. intros H. each_level H ltac:(reflexivity). Qed.

(** Without an occurrence nothing is replaced. *)
Lemma replace_no_occurrence (s w new : string) :
  (forall p q, s <> p ++ w ++ q) -> replace s w new = s.
Proof.
  intros H. unfold replace. destruct w as [|o w].
  - exfalso. apply (H "" s). reflexivity.
  - induction s as [|c s IH]; [reflexivity|].
    rewrite replace_from_no_match.
    + f_equal. apply IH. intros p q E. apply (H (String c p) q).
      simpl. now rewrite E.
    + destruct (prefix (String o w) (String c s)) eqn:P; [|reflexivity].
      apply prefix_spec in P. destruct P as [q E]. exfalso.
      exact (H "" q E).
Qed.

Lemma level_search_app_free (d t : string) :
  level_pattern_search d = None ->
  all_chars level_free_char t = true ->
  level_pattern_search (d ++ t) = None.
Proof.
  intros Hd Ht. induction d as [|c d IH].
  - cbn [append]. rewrite <- (append_nil_r t).
    now rewrite (level_search_skip _ _ Ht).
  - cbn [level_pattern_search] in Hd.
    destruct (find (fun l => prefix l (String c d)) LEVEL_VALUES) eqn:F;
      [discriminate|].
    cbn [append level_pattern_search]. rewrite (IH Hd).
    replace (find (fun l => prefix l (String c (d ++ t))) LEVEL_VALUES)
      with (@None string); [reflexivity|].
    symmetry. revert F. cbn [find LEVEL_VALUES]. rewrite !prefix_cons.
    destruct d as [|x d].
    + intros _. destruct t as [|y t]; cbn [append].
      * cbn [prefix]. now rewrite !andb_false_r.
      * cbn [all_chars] in Ht. apply andb_true_iff in Ht.
        destruct Ht as [Hy _]. unfold level_free_char in Hy.
        apply negb_true_iff in Hy. rewrite !orb_false_iff in Hy.
        destruct Hy as ((((_ & _) & _) & H1) & H2).
        rewrite !prefix_cons.
        rewrite (Ascii.eqb_sym "1" y), (Ascii.eqb_sym "2" y), H1, H2.
        cbn [andb]. now rewrite !andb_false_r.
    + cbn [append]. rewrite !prefix_cons, !prefix_nil. exact (fun H => H).
Qed.

(** A level code at the very end, with no comma after it, does not split. *)
Lemma re_split_level_at_end (s l : string) :
  level_pattern_search s = None -> In l LEVEL_VALUES ->
  re_split_level_comma (s ++ l) = [s ++ l].
Proof.
  intros Hs Hl. destruct (level_shape l Hl) as (x & y & -> & Hx & Hy & _).
  induction s as [|a s IH].
  - cbn [append]. rewrite !re_split_level_comma_unfold. reflexivity.
  - assert (level_pattern_search s = None) as Hs'
        by (apply (no_level_substring (String a "") s ""); simpl;
            now rewrite append_nil_r).
    cbn [append]. rewrite re_split_level_comma_unfold, (IH Hs').
    destruct s as [|b [|c rest]]; cbn [append].
    + now rewrite Hy.
    + now rewrite Hx.
    + replace (is_level (String a (String b ""))) with false;
        [now rewrite andb_false_r|].
      symmetry. apply no_level_not_level.
      apply (no_level_substring "" (String a (String b "")) (String c rest)), Hs.
Qed.

(** A line made of a word without space, a space and one subentry that
    starts a boundary, when the word occurs nowhere after itself. *)
Lemma single_subentry_line
      (w s l : string) (log : list LogRecord) (r : ParsedSubentry) :
  all_chars (fun c => negb (Ascii.eqb c " ")) w = true ->
  (forall p q, " " ++ s ++ l <> p ++ w ++ q) ->
  s <> "" -> level_pattern_search s = None -> In l LEVEL_VALUES ->
  strip (s ++ l) = s ++ l ->
  start_with_definition_pattern_match (s ++ l) = true
  \/ start_with_part_of_speech_pattern_match (s ++ l) = true ->
  parse_subentry (s ++ l) = (log, inr r) ->
  parse_word_entry (w ++ " " ++ s ++ l) =
  (BEGIN_PARSING_WORD_ENTRY (w ++ " " ++ s ++ l)
   :: FOUND_WORD w :: LINE_AFTER_REMOVING_WORD (s ++ l)
   :: SUBENTRY (s ++ l) :: log,
   inr {| wordForms := w; subentries := [r] |}).
Proof.
  intros Hw Hocc Hne Hs Hl Hstrip Hb Hp.
  assert (find_word (w ++ " " ++ s ++ l) = w) as Fw.
  { unfold find_word, split.
    change (w ++ " " ++ s ++ l) with (w ++ String " " (s ++ l)).
    rewrite (split_by_app_sep _ w _ " "%char); [|
      revert Hw; apply all_chars_weaken; intros c;
      now rewrite Ascii.eqb_sym | reflexivity].
    pose proof (join_split " " (s ++ l)) as J. unfold split in J.
    destruct (split_by (Ascii.eqb " ") (s ++ l)) as [|p ps]; [reflexivity|].
    cbn [scan_word_parts]. rewrite J.
    destruct Hb as [-> | Hb]; [reflexivity|]. rewrite Hb.
    now destruct (start_with_definition_pattern_match (s ++ l)). }
  assert (remove_word (w ++ " " ++ s ++ l) w = s ++ l) as Rw.
  { unfold remove_word. destruct w as [|o w].
    - exfalso. apply (Hocc "" (" " ++ s ++ l)). reflexivity.
    - rewrite replace_prefix by discriminate.
      rewrite (replace_no_occurrence _ _ _ Hocc). cbn [append].
      exact Hstrip. }
  assert (split_subentries (s ++ l) = [s ++ l]) as Ss.
  { unfold split_subentries. rewrite (re_split_level_at_end _ _ Hs Hl).
    rewrite split_loop_cons, Hstrip.
    replace (s ++ l =? "") with false
      by (symmetry; apply String.eqb_neq; destruct s; [congruence|discriminate]).
    replace (is_level (s ++ l)) with false.
    - replace (existsb (endswith (s ++ l)) LEVEL_VALUES) with true;
        [reflexivity|].
      symmetry. apply existsb_exists. exists l.
      split; [assumption | apply endswith_append].
    - symmetry. destruct (is_level (s ++ l)) eqn:E; [|reflexivity].
      apply is_level_In in E.
      destruct (level_shape _ E) as (a & b & E1 & _).
      destruct (level_shape _ Hl) as (x & y & -> & _).
      apply (f_equal String.length) in E1. rewrite length_append in E1.
      destruct s; [congruence | simpl in E1; lia]. }
  unfold parse_word_entry. rewrite Fw, Rw.
  unfold parse_remainder, parse_subentries. rewrite Ss.
  cbn [for_each]. rewrite Hp.
  cbv beta iota zeta delta [bind logging_debug ret]. cbn [app].
  now rewrite ?app_nil_r.
Qed.

Section RecoverFacts.

Variables (d : string) (tags : list string) (l : string).
Hypothesis Hd : all_chars (fun c => negb (is_paren c)) d = true.
Hypothesis Hne : tags <> [].
Hypothesis Hv : Forall (fun p => In p part_of_speech_vocabulary) tags.
Hypothesis Hl : In l LEVEL_VALUES.

Lemma tags_and_level_no_open :
  all_chars (fun c => negb (Ascii.eqb c "(")) (tags_and_level tags l) = true.
Proof.
  unfold tags_and_level. rewrite <- append_assoc, all_chars_app.
  rewrite (level_chars l Hl), andb_true_r.
  assert (Forall (fun p => good_tag p = true) tags) as Hg
      by (eapply Forall_impl; [|exact Hv]; apply vocabulary_good_tags).
  pose proof (tags_chars tags Hg) as H. revert H.
  apply all_chars_weaken. intros c. rewrite andb_true_iff. tauto.
Qed.

Lemma parse_subentry_with_definition :
  parse_subentry ("(" ++ d ++ ") " ++ tags_and_level tags l) =
  ([DEFINITION d; LEVEL l; PART_OF_SPEECH tags],
   inr {| definition := d; partsOfSpeech := tags; level := l |}).
Proof.
  destruct (tags_and_level_parsed tags l Hne Hv Hl) as (Hs & Hf & Hm & Hu).
  pose proof tags_and_level_no_open as Hc.
  rewrite parse_subentry_eq; cbv zeta.
  change ("(" ++ d ++ ") " ++ tags_and_level tags l)
    with ("(" ++ d ++ ")" ++ " " ++ tags_and_level tags l).
  rewrite (definition_text_of_paren d _ Hd).
  assert (remove_definition
            ("(" ++ d ++ ")" ++ " " ++ tags_and_level tags l) d
          = tags_and_level tags l) as R.
  { unfold remove_definition.
    change ("(" ++ d ++ ")" ++ " " ++ tags_and_level tags l)
      with (String "(" (d ++ ")" ++ " " ++ tags_and_level tags l)).
    change ("(" ++ d ++ ")") with (String "(" (d ++ ")")).
    replace (String "(" (d ++ ")" ++ " " ++ tags_and_level tags l))
      with (String "(" (d ++ ")") ++ " " ++ tags_and_level tags l)
      by (cbn [append]; now rewrite append_assoc).
    rewrite replace_prefix by discriminate. unfold replace.
    rewrite <- (append_nil_r (" " ++ tags_and_level tags l)).
    rewrite replace_from_skip_absent by exact Hc.
    cbn [replace_from append]. rewrite append_nil_r. exact Hs. }
  rewrite R, Hf, Hm, Hu. unfold definition_log.
  rewrite (definition_text_of_paren d _ Hd). unfold startswith.
  change ("(" ++ d ++ ")" ++ " " ++ tags_and_level tags l)
    with (String "(" (d ++ ")" ++ " " ++ tags_and_level tags l)).
  now rewrite prefix_cons, prefix_nil.
Qed.

Lemma parse_subentry_without_definition :
  parse_subentry (tags_and_level tags l) =
  ([LEVEL l; PART_OF_SPEECH tags],
   inr {| definition := ""; partsOfSpeech := tags; level := l |}).
Proof.
  destruct (tags_and_level_parsed tags l Hne Hv Hl) as (Hs & Hf & Hm & Hu).
  pose proof tags_and_level_no_open as Hc.
  rewrite parse_subentry_eq; cbv zeta.
  assert (startswith (tags_and_level tags l) "(" = false) as Hst.
  { unfold startswith. destruct (tags_and_level tags l) as [|c t] eqn:E.
    - discriminate Hf.
    - cbn [all_chars] in Hc. apply andb_true_iff in Hc. destruct Hc as [Hc _].
      apply negb_true_iff in Hc. rewrite prefix_cons, Ascii.eqb_sym, Hc.
      reflexivity. }
  unfold definition_text, definition_log. rewrite Hst.
  assert (remove_definition (tags_and_level tags l) ""
          = tags_and_level tags l) as R.
  { unfold remove_definition, replace. cbn [append].
    rewrite <- (append_nil_r (tags_and_level tags l)) at 1.
    rewrite replace_from_skip_absent by exact Hc.
    cbn [replace_from]. rewrite append_nil_r. exact Hs. }
  rewrite R, Hf, Hm, Hu. reflexivity.
Qed.

Lemma closes_before_newline_app (t : string) :
  all_chars (fun c => negb (Ascii.eqb c LF)) d = true ->
  closes_before_newline (d ++ String ")" t) = true.
Proof.
  clear Hd. induction d as [|c d' IH]; [reflexivity|].
  cbn [all_chars append closes_before_newline].
  rewrite andb_true_iff, negb_true_iff. intros [Hc Hd']. rewrite Hc.
  destruct (Ascii.eqb c ")"); [reflexivity | now apply IH].
Qed.

(** A line with a word, a definition, tags and a level. *)
Lemma line_with_definition (w : string) :
  all_chars (fun c => negb (Ascii.eqb c " ")) w = true ->
  (forall p q,
      " " ++ "(" ++ d ++ ") " ++ tags_and_level tags l <> p ++ w ++ q) ->
  all_chars (fun c => negb (Ascii.eqb c LF)) d = true ->
  level_pattern_search d = None ->
  parse_word_entry (w ++ " " ++ "(" ++ d ++ ") " ++ tags_and_level tags l) =
  ([BEGIN_PARSING_WORD_ENTRY
      (w ++ " " ++ "(" ++ d ++ ") " ++ tags_and_level tags l);
    FOUND_WORD w;
    LINE_AFTER_REMOVING_WORD ("(" ++ d ++ ") " ++ tags_and_level tags l);
    SUBENTRY ("(" ++ d ++ ") " ++ tags_and_level tags l);
    DEFINITION d; LEVEL l; PART_OF_SPEECH tags],
   inr {| wordForms := w;
          subentries :=
            [{| definition := d; partsOfSpeech := tags; level := l |}] |}).
Proof.
  intros Hw Hocc Hlf Hsd.
  assert (Forall (fun p => good_tag p = true) tags) as Hg
      by (eapply Forall_impl; [|exact Hv]; apply vocabulary_good_tags).
  assert ("(" ++ d ++ ") " ++ tags_and_level tags l
          = ("(" ++ d ++ ") " ++ join ", " tags ++ " ") ++ l) as E.
  { unfold tags_and_level. now rewrite !append_assoc. }
  rewrite E in *.
  apply single_subentry_line; try assumption.
  - discriminate.
  - change ("(" ++ d ++ ") " ++ join ", " tags ++ " ")
      with ("(" ++ d ++ ") " ++ join ", " tags ++ " ").
    rewrite (level_search_skip "(" _ eq_refl).
    apply level_search_app_free; [assumption|].
    change (") " ++ join ", " tags ++ " ")
      with (String ")" (String " " (join ", " tags ++ " "))).
    cbn [all_chars]. change (level_free_char ")") with true.
    change (level_free_char " ") with true. cbn [andb].
    pose proof (tags_chars tags Hg) as H. revert H.
    apply all_chars_weaken. intros c. rewrite andb_true_iff. tauto.
  - unfold strip. cbn [append lstrip].
    change (is_space "(") with false. cbv iota.
    refine (rstrip_keeps_suffix
              (String "(" (d ++ ") " ++ join ", " tags ++ " ")) l _ _);
      [now apply level_nonempty | now apply level_rstrip].
  - left. rewrite <- E.
    change ("(" ++ d ++ ") " ++ tags_and_level tags l)
      with (String "(" (d ++ String ")" (" " ++ tags_and_level tags l))).
    cbn [start_with_definition_pattern_match Ascii.eqb Bool.eqb andb].
    now apply closes_before_newline_app.
  - rewrite <- E. apply parse_subentry_with_definition.
Qed.

(** A line with a word, tags and a level. *)
Lemma line_without_definition (w : string) :
  all_chars (fun c => negb (Ascii.eqb c " ")) w = true ->
  (forall p q, " " ++ tags_and_level tags l <> p ++ w ++ q) ->
  parse_word_entry (w ++ " " ++ tags_and_level tags l) =
  ([BEGIN_PARSING_WORD_ENTRY (w ++ " " ++ tags_and_level tags l);
    FOUND_WORD w;
    LINE_AFTER_REMOVING_WORD (tags_and_level tags l);
    SUBENTRY (tags_and_level tags l);
    LEVEL l; PART_OF_SPEECH tags],
   inr {| wordForms := w;
          subentries :=
            [{| definition := ""; partsOfSpeech := tags; level := l |}] |}).
Proof.
  intros Hw Hocc.
  assert (Forall (fun p => good_tag p = true) tags) as Hg
      by (eapply Forall_impl; [|exact Hv]; apply vocabulary_good_tags).
  destruct (tags_and_level_parsed tags l Hne Hv Hl) as (Hs & _).
  destruct (strip_tags tags Hne Hg) as (Jn & _).
  pose proof parse_subentry_without_definition as Hp.
  assert (start_with_part_of_speech_pattern_match (tags_and_level tags l)
          = true) as Hb.
  { unfold start_with_part_of_speech_pattern_match. apply existsb_exists.
    destruct tags as [|p ps]; [congruence|]. exists p.
    split; [now inversion Hv|]. apply prefix_spec. unfold tags_and_level.
    destruct ps as [|q ps].
    - now exists (" " ++ l).
    - exists (", " ++ join ", " (q :: ps) ++ " " ++ l).
      rewrite join_cons. now rewrite !append_assoc. }
  assert (tags_and_level tags l = (join ", " tags ++ " ") ++ l) as E
      by (unfold tags_and_level; now rewrite append_assoc).
  rewrite E in *.
  apply single_subentry_line; try assumption.
  - destruct (join ", " tags); [congruence | discriminate].
  - rewrite <- (append_nil_r (join ", " tags ++ " ")).
    rewrite level_search_skip; [reflexivity|].
    pose proof (tags_chars tags Hg) as H. revert H.
    apply all_chars_weaken. intros c. rewrite andb_true_iff. tauto.
  - now right.
Qed.

End RecoverFacts.

End RoundTripFacts.

(** X8: a subentry written as an optional parenthesised definition without
    parenthesis inside, tags of the vocabulary separated by ", ", a space
    and a level code is parsed back into that definition, those tags in
    order and that level, with no candidate reported. *)
Theorem parse_subentry_recovers (d : string) (tags : list string) (l : string) :
  all_chars (fun c => negb (is_paren c)) d = true ->
  tags <> [] ->
  Forall (fun p => In p part_of_speech_vocabulary) tags ->
  In l LEVEL_VALUES ->
  parse_subentry ("(" ++ d ++ ") " ++ tags_and_level tags l) =
  ([DEFINITION d; LEVEL l; PART_OF_SPEECH tags],
   inr {| definition := d; partsOfSpeech := tags; level := l |})
  /\ parse_subentry (tags_and_level tags l) =
     ([LEVEL l; PART_OF_SPEECH tags],
      inr {| definition := ""; partsOfSpeech := tags; level := l |}).
Proof.
  intros Hd Hne Hv Hl. split.
  - now apply parse_subentry_with_definition.
  - now apply parse_subentry_without_definition.
Qed.

Lemma parse_subentry_recovers_witness :
  parse_subentry "(not busy) adj., adv. B1" =
  ([DEFINITION "not busy"; LEVEL "B1"; PART_OF_SPEECH ["adj."; "adv."]],
   inr {| definition := "not busy"; partsOfSpeech := ["adj."; "adv."];
          level := "B1" |}).
Proof.
  refine (proj1 (parse_subentry_recovers "not busy" ["adj."; "adv."] "B1"
                   eq_refl _ _ _)).
  - discriminate.
  - repeat constructor; simpl; tauto.
  - simpl; tauto.
Defined.

(** X9: a line made of a word without space, a parenthesised definition
    (no parenthesis, line feed or level code inside), tags of the vocabulary
    separated by ", " and a level code is parsed into that word and one
    subentry with that definition, those tags and that level, provided the
    word occurs nowhere in the rest of the line. *)
Theorem parse_word_entry_recovers
        (w d : string) (tags : list string) (l : string) :
  all_chars (fun c => negb (Ascii.eqb c " ")) w = true ->
  (forall p q,
      " " ++ "(" ++ d ++ ") " ++ tags_and_level tags l <> p ++ w ++ q) ->
  all_chars (fun c => negb (is_paren c)) d = true ->
  all_chars (fun c => negb (Ascii.eqb c LF)) d = true ->
  level_pattern_search d = None ->
  tags <> [] ->
  Forall (fun p => In p part_of_speech_vocabulary) tags ->
  In l LEVEL_VALUES ->
  parse_word_entry (w ++ " " ++ "(" ++ d ++ ") " ++ tags_and_level tags l) =
  ([BEGIN_PARSING_WORD_ENTRY
      (w ++ " " ++ "(" ++ d ++ ") " ++ tags_and_level tags l);
    FOUND_WORD w;
    LINE_AFTER_REMOVING_WORD ("(" ++ d ++ ") " ++ tags_and_level tags l);
    SUBENTRY ("(" ++ d ++ ") " ++ tags_and_level tags l);
    DEFINITION d; LEVEL l; PART_OF_SPEECH tags],
   inr {| wordForms := w;
          subentries :=
            [{| definition := d; partsOfSpeech := tags; level := l |}] |}).
Proof.
  intros Hw Hocc Hd Hlf Hsd Hne Hv Hl.
  apply line_with_definition; assumption.
Qed.

(** X10: a line made of a word without space, tags of the vocabulary
    separated by ", " and a level code is parsed into that word and one
    subentry with an empty definition, those tags and that level, provided
    the word occurs nowhere in the rest of the line. *)
Theorem parse_word_entry_recovers_tags
        (w : string) (tags : list string) (l : string) :
  all_chars (fun c => negb (Ascii.eqb c " ")) w = true ->
  (forall p q, " " ++ tags_and_level tags l <> p ++ w ++ q) ->
  tags <> [] ->
  Forall (fun p => In p part_of_speech_vocabulary) tags ->
  In l LEVEL_VALUES ->
  parse_word_entry (w ++ " " ++ tags_and_level tags l) =
  ([BEGIN_PARSING_WORD_ENTRY (w ++ " " ++ tags_and_level tags l);
    FOUND_WORD w;
    LINE_AFTER_REMOVING_WORD (tags_and_level tags l);
    SUBENTRY (tags_and_level tags l);
    LEVEL l; PART_OF_SPEECH tags],
   inr {| wordForms := w;
          subentries :=
            [{| definition := ""; partsOfSpeech := tags; level := l |}] |}).
Proof.
  intros Hw Hocc Hne Hv Hl.
  apply line_without_definition; assumption.
Qed.

Section OccursFacts.

Lemma occurs_false (w s : string) :
  occurs w s = false -> forall p q, s <> p ++ w ++ q.
Proof.
  induction s as [|c s IH]; cbn [occurs]; rewrite orb_false_iff;
    intros [P H] p q E.
  - destruct p; simpl in E; [|discriminate E].
    destruct w; [discriminate P | discriminate E].
  - destruct p as [|x p]; simpl in E.
    + rewrite E, prefix_append in P. discriminate.
    + injection E as _ E. exact (IH H p q E).
Qed.

End OccursFacts.

Lemma parse_word_entry_recovers_witness :
  parse_word_entry "bank (money) n., v. B1" =
  ([BEGIN_PARSING_WORD_ENTRY "bank (money) n., v. B1"; FOUND_WORD "bank";
    LINE_AFTER_REMOVING_WORD "(money) n., v. B1";
    SUBENTRY "(money) n., v. B1";
    DEFINITION "money"; LEVEL "B1"; PART_OF_SPEECH ["n."; "v."]],
   inr {| wordForms := "bank";
          subentries :=
            [{| definition := "money"; partsOfSpeech := ["n."; "v."];
                level := "B1" |}] |}).
Proof.
  refine (parse_word_entry_recovers "bank" "money" ["n."; "v."] "B1"
            eq_refl _ eq_refl eq_refl eq_refl _ _ _).
  - apply occurs_false. reflexivity.
  - discriminate.
  - repeat constructor; simpl; tauto.
  - simpl; tauto.
Defined.

Lemma parse_word_entry_recovers_tags_witness :
  parse_word_entry "long-term adj. B2" =
  ([BEGIN_PARSING_WORD_ENTRY "long-term adj. B2"; FOUND_WORD "long-term";
    LINE_AFTER_REMOVING_WORD "adj. B2"; SUBENTRY "adj. B2";
    LEVEL "B2"; PART_OF_SPEECH ["adj."]],
   inr {| wordForms := "long-term";
          subentries :=
            [{| definition := ""; partsOfSpeech := ["adj."];
                level := "B2" |}] |}).
Proof.
  refine (parse_word_entry_recovers_tags "long-term" ["adj."] "B2"
            eq_refl _ _ _ _).
  - apply occurs_false. reflexivity.
  - discriminate.
  - repeat constructor; simpl; tauto.
  - simpl; tauto.
Defined.

(** ** The line finders *)

Section FinderFacts.

Lemma closes_before_newline_closes_paren (s : string) :
  closes_before_newline s = true -> closes_paren s = true.
Proof.
  induction s as [|c s IH]; [discriminate|].
  cbn [closes_before_newline closes_paren].
  destruct (Ascii.eqb c ")"); [reflexivity|].
  destruct (Ascii.eqb c LF); [discriminate | exact IH].
Qed.

Lemma drop_letters_app (u : string) (c : ascii) (rest : string) :
  all_chars is_ascii_letter u = true -> is_ascii_letter c = false ->
  drop_letters (u ++ String c rest) = String c rest.
Proof.
  intros Hu Hc. induction u as [|x u IH].
  - cbn [append drop_letters]. now rewrite Hc.
  - cbn [all_chars] in Hu. apply andb_true_iff in Hu. destruct Hu as [Hx Hu].
    cbn [append drop_letters]. now rewrite Hx, IH.
Qed.

Lemma after_letters_app (u : string) (c : ascii) (rest : string) :
  u <> "" -> all_chars is_ascii_letter u = true -> is_ascii_letter c = false ->
  after_letters (u ++ String c rest) = Some (String c rest).
Proof.
  destruct u as [|x u]; [congruence|]. intros _ Hu Hc.
  cbn [all_chars] in Hu. apply andb_true_iff in Hu. destruct Hu as [Hx Hu].
  cbn [append after_letters]. now rewrite Hx, drop_letters_app.
Qed.

(** A text that starts with a letter run and a character that is neither a
    letter, a dot, nor 1 or 2 is no second line. *)
Lemma second_line_pattern_headword (u : string) (c : ascii) (rest : string) :
  u <> "" -> all_chars is_ascii_letter u = true ->
  is_ascii_letter c = false ->
  Ascii.eqb c "." = false -> Ascii.eqb c "1" = false ->
  Ascii.eqb c "2" = false ->
  second_line_pattern_match (u ++ String c rest) = false.
Proof.
  intros Hne Hu Hc Hdot H1 H2. unfold second_line_pattern_match.
  rewrite (after_letters_app u c rest Hne Hu Hc), prefix_cons.
  rewrite (Ascii.eqb_sym "." c), Hdot. cbn [andb]. rewrite orb_false_r.
  destruct u as [|x u]; [congruence|].
  cbn [all_chars] in Hu. apply andb_true_iff in Hu. destruct Hu as [Hx Hu].
  cbn [append].
  replace (Ascii.eqb x "(") with false
    by (destruct (Ascii.eqb_spec x "("); [subst; discriminate | reflexivity]).
  cbn [andb]. rewrite orb_false_r.
  cbn [existsb LEVEL_VALUES]. rewrite !prefix_cons.
  destruct u as [|y u]; cbn [append]; rewrite !prefix_cons.
  - rewrite (Ascii.eqb_sym "1" c), (Ascii.eqb_sym "2" c), H1, H2.
    cbn [andb]. now rewrite !andb_false_r.
  - cbn [all_chars] in Hu. apply andb_true_iff in Hu. destruct Hu as [Hy _].
    replace (Ascii.eqb "1" y) with false
      by (destruct (Ascii.eqb_spec "1" y); [subst; discriminate | reflexivity]).
    replace (Ascii.eqb "2" y) with false
      by (destruct (Ascii.eqb_spec "2" y); [subst; discriminate | reflexivity]).
    cbn [andb]. now rewrite !andb_false_r.
Qed.

End FinderFacts.

(** X11: [find_second_line_candidates] selects every line whose stripped
    text starts with a level code, starts a definition as the scanner
    understands it, or starts with letters followed by a dot. *)
Theorem second_line_selected (lines : list string) (line : string) :
  In line lines ->
  existsb (fun l => prefix l (strip line)) LEVEL_VALUES = true
  \/ start_with_definition_pattern_match (strip line) = true
  \/ (exists u rest,
        u <> "" /\ all_chars is_ascii_letter u = true
        /\ strip line = u ++ "." ++ rest) ->
  In line (find_second_line_candidates lines).
Proof.
  intros Hin H. unfold find_second_line_candidates. apply filter_In.
  split; [assumption|]. unfold second_line_pattern_match.
  destruct H as [H | [H | (u & rest & Hne & Hu & E)]].
  - now rewrite H.
  - unfold start_with_definition_pattern_match in H.
    destruct (strip line) as [|c s]; [discriminate|].
    apply andb_true_iff in H. destruct H as [Hc Hs].
    rewrite Hc, (closes_before_newline_closes_paren _ Hs).
    cbn [andb]. now rewrite orb_true_r.
  - rewrite E. change (u ++ "." ++ rest) with (u ++ String "." rest).
    rewrite (after_letters_app u "." rest Hne Hu eq_refl).
    rewrite prefix_cons, prefix_nil. now rewrite orb_true_r.
Qed.

Lemma second_line_selected_witness :
  In "  adv. B2" (find_second_line_candidates ["bank n. A1"; "  adv. B2"]).
Proof.
  apply second_line_selected.
  - right; left; reflexivity.
  - right. right. exists "adv", " B2". repeat split. discriminate.
Defined.

(** X12: [find_second_line_candidates] never selects a line whose stripped
    text starts with a run of letters followed by a character that is
    neither a letter, a dot, 1 nor 2: a headword followed by a space, a
    comma or a hyphen is not taken for a second line. *)
Theorem headword_line_not_selected
        (lines : list string) (line u rest : string) (c : ascii) :
  strip line = u ++ String c rest ->
  u <> "" -> all_chars is_ascii_letter u = true ->
  is_ascii_letter c = false ->
  Ascii.eqb c "." = false -> Ascii.eqb c "1" = false ->
  Ascii.eqb c "2" = false ->
  ~ In line (find_second_line_candidates lines).
Proof.
  intros E Hne Hu Hc Hdot H1 H2 Hin.
  unfold find_second_line_candidates in Hin. apply filter_In in Hin.
  destruct Hin as [_ Hm]. rewrite E in Hm.
  rewrite second_line_pattern_headword in Hm by assumption. discriminate.
Qed.

Lemma headword_line_not_selected_witness :
  ~ In "bank (money) n. B1"
       (find_second_line_candidates ["bank (money) n. B1"; "(land) n. A2"]).
Proof.
  apply (headword_line_not_selected _ _ "bank" "(money) n. B1" " "%char);
    try reflexivity.
  discriminate.
Defined.

(** X13: [find_word_with_number] selects every line whose stripped text is
    a run of letters, one digit, one whitespace character and a rest
    without line feed; a level code followed by whitespace has this shape,
    so such a line is selected by both finders. *)
Theorem word_with_number_selected
        (lines : list string) (line u rest : string) (d sp : ascii) :
  In line lines ->
  strip line = u ++ String d (String sp rest) ->
  u <> "" -> all_chars is_ascii_letter u = true ->
  is_digit d = true -> is_space sp = true ->
  all_chars (fun c => negb (Ascii.eqb c LF)) rest = true ->
  In line (find_word_with_number lines)
  /\ (In (u ++ String d "") LEVEL_VALUES ->
      In line (find_second_line_candidates lines)).
Proof.
  intros Hin E Hne Hu Hd Hsp Hrest. split.
  - unfold find_word_with_number. apply filter_In. split; [assumption|].
    unfold word_with_number_pattern_match. rewrite E.
    rewrite after_letters_app; try assumption.
    + rewrite Hd, Hsp. cbn [andb]. clear - Hrest.
      induction rest as [|c rest IH]; [reflexivity|].
      cbn [all_chars] in Hrest. apply andb_true_iff in Hrest.
      destruct Hrest as [Hc Hr]. apply negb_true_iff in Hc.
      cbn [rest_of_line]. rewrite Hc. now apply IH.
    + destruct (is_ascii_letter d) eqn:L; [|reflexivity].
      revert Hd L. clear. unfold is_digit, is_ascii_letter.
      destruct (nat_of_ascii d) as [|n] eqn:N; [discriminate|].
      rewrite !andb_true_iff, !orb_true_iff, !andb_true_iff, !Nat.leb_le.
      lia.
  - intros Hlev. unfold find_second_line_candidates. apply filter_In.
    split; [assumption|]. unfold second_line_pattern_match.
    replace (existsb (fun l => prefix l (strip line)) LEVEL_VALUES) with true;
      [reflexivity|].
    symmetry. apply existsb_exists. exists (u ++ String d "").
    split; [assumption|].
    rewrite E. apply prefix_spec. exists (String sp rest).
    now rewrite append_assoc.
Qed.

Lemma word_with_number_selected_witness :
  In "B1 adv. B2" (find_word_with_number ["close1 adj. A2"; "B1 adv. B2"])
  /\ In "B1 adv. B2"
        (find_second_line_candidates ["close1 adj. A2"; "B1 adv. B2"]).
Proof.
  destruct (word_with_number_selected ["close1 adj. A2"; "B1 adv. B2"]
              "B1 adv. B2" "B" "adv. B2" "1"%char " "%char) as [H1 H2];
    try reflexivity.
  - right; left; reflexivity.
  - discriminate.
  - split; [exact H1 | apply H2; simpl; tauto].
Defined.

(** ** The splitter ignores surrounding whitespace *)

Section SplitterWhitespaceFacts.

Lemma space_not_level (c b : ascii) :
  is_space c = true -> is_level (String c (String b "")) = false.
Proof.
  intros Hc. destruct (is_level (String c (String b ""))) eqn:E; [|reflexivity].
  apply is_level_In in E.
  destruct (level_shape _ E) as (x & y & [= -> ->] & _ & _ & Hx & _).
  congruence.
Qed.

Lemma re_split_leading_space (c : ascii) (s : string) :
  is_space c = true ->
  re_split_level_comma (String c s) = cons_head c (re_split_level_comma s).
Proof.
  intros Hc. rewrite re_split_level_comma_unfold.
  destruct s as [|b [|c' rest]]; try reflexivity.
  now rewrite (space_not_level c b Hc), andb_false_r.
Qed.

Lemma strip_leading_space (c : ascii) (s : string) :
  is_space c = true -> strip (String c s) = strip s.
Proof. intros Hc. unfold strip. cbn [lstrip]. now rewrite Hc. Qed.

Lemma rstrip_trailing_space (s : string) (c : ascii) :
  is_space c = true -> rstrip (s ++ String c "") = rstrip s.
Proof.
  intros Hc. induction s as [|x s IH].
  - cbn [append rstrip]. now rewrite Hc.
  - cbn [append rstrip]. now rewrite IH.
Qed.

Lemma strip_trailing_space (s : string) (c : ascii) :
  is_space c = true -> strip (s ++ String c "") = strip s.
Proof.
  intros Hc. unfold strip. induction s as [|x s IH].
  - cbn [append lstrip]. now rewrite Hc.
  - cbn [append lstrip]. destruct (is_space x); [exact IH|].
    exact (rstrip_trailing_space (String x s) c Hc).
Qed.

Lemma append_last_cons_head (a : ascii) (l : list string) (t : string) :
  l <> [] -> append_last (cons_head a l) t = cons_head a (append_last l t).
Proof. destruct l as [|p [|q l]]; [congruence | reflexivity | reflexivity]. Qed.

Lemma append_last_nonempty (l : list string) (t : string) :
  l <> [] -> append_last l t <> [].
Proof. destruct l as [|p [|q l]]; [congruence | discriminate | discriminate]. Qed.

(** A whitespace character at the end only lengthens the last piece. *)
Lemma re_split_trailing_space (s : string) (c : ascii) :
  is_space c = true ->
  re_split_level_comma (s ++ String c "") =
  append_last (re_split_level_comma s) (String c "").
Proof.
  intros Hc.
  assert (Ascii.eqb c "," = false) as Hcomma.
  { destruct (Ascii.eqb_spec c ","); [subst; discriminate | reflexivity]. }
  remember (String.length s) as n eqn:Hn. revert s Hn.
  induction n as [n IH] using lt_wf_ind. intros s Hn.
  destruct s as [|a [|b [|c' rest]]].
  - reflexivity.
  - reflexivity.
  - cbn [append]. rewrite re_split_level_comma_unfold, Hcomma. reflexivity.
  - cbn [append].
    rewrite (re_split_level_comma_unfold a (String b (String c' rest))).
    rewrite re_split_level_comma_unfold.
    change (String b (String c' (rest ++ String c "")))
      with (String b (String c' rest) ++ String c "").
    simpl in Hn.
    destruct (Ascii.eqb c' "," && is_level (String a (String b ""))).
    + rewrite (IH (String.length rest)); [|lia|reflexivity].
      destruct (re_split_level_comma rest) eqn:E; [|reflexivity].
      now destruct (re_split_level_comma_nonempty rest).
    + rewrite (IH (S (S (String.length rest)))); [|lia|reflexivity].
      symmetry. apply append_last_cons_head, re_split_level_comma_nonempty.
Qed.

Lemma split_loop_append_last (l : list string) (part : string) (c : ascii) :
  is_space c = true ->
  split_loop part (append_last l (String c "")) = split_loop part l.
Proof.
  intros Hc. revert part. induction l as [|p l IH]; intros part; [reflexivity|].
  destruct l as [|q l].
  - cbn [append_last]. rewrite !split_loop_cons.
    now rewrite (strip_trailing_space p c Hc).
  - change (append_last (p :: q :: l) (String c ""))
      with (p :: append_last (q :: l) (String c "")).
    rewrite !split_loop_cons, !IH. reflexivity.
Qed.

Lemma split_subentries_leading_space (c : ascii) (s : string) :
  is_space c = true -> split_subentries (String c s) = split_subentries s.
Proof.
  intros Hc. unfold split_subentries. rewrite (re_split_leading_space c s Hc).
  destruct (re_split_level_comma s) as [|p ps] eqn:E;
    [now destruct (re_split_level_comma_nonempty s)|].
  cbn [cons_head]. rewrite !split_loop_cons.
  now rewrite (strip_leading_space c p Hc).
Qed.

Lemma split_subentries_trailing_space (s : string) (c : ascii) :
  is_space c = true ->
  split_subentries (s ++ String c "") = split_subentries s.
Proof.
  intros Hc. unfold split_subentries.
  rewrite (re_split_trailing_space s c Hc). now apply split_loop_append_last.
Qed.

Lemma split_subentries_trailing_spaces (ws s : string) :
  all_chars is_space ws = true ->
  split_subentries (s ++ ws) = split_subentries s.
Proof.
  revert s. induction ws as [|c ws IH]; intros s H.
  - now rewrite append_nil_r.
  - cbn [all_chars] in H. apply andb_true_iff in H. destruct H as [Hc Hws].
    change (String c ws) with (String c "" ++ ws).
    rewrite <- append_assoc, (IH _ Hws).
    now apply split_subentries_trailing_space.
Qed.

Lemma rstrip_spaces (s : string) :
  exists ws, s = rstrip s ++ ws /\ all_chars is_space ws = true.
Proof.
  induction s as [|c s (ws & E & H)]; [now exists ""|].
  cbn [rstrip]. destruct (rstrip s) as [|d r] eqn:R.
  - destruct (is_space c) eqn:Hc.
    + exists (String c s). split; [reflexivity|].
      cbn [all_chars]. rewrite Hc. simpl in E. now rewrite E.
    + exists ws. split; [|assumption]. simpl in *. now rewrite <- E.
  - exists ws. split; [|assumption]. simpl in *. now rewrite <- E.
Qed.

End SplitterWhitespaceFacts.

(** X14: the splitter does not depend on the whitespace around its input:
    whitespace characters before and after a text, and stripping the text,
    leave the emitted subentries as they are. *)
Theorem split_subentries_ignores_whitespace (s : string) :
  split_subentries (strip s) = split_subentries s
  /\ forall before after,
       all_chars is_space before = true ->
       all_chars is_space after = true ->
       split_subentries (before ++ s ++ after) = split_subentries s.
Proof.
  assert (forall t, split_subentries (lstrip t) = split_subentries t) as L.
  { induction t as [|c t IH]; [reflexivity|].
    cbn [lstrip]. destruct (is_space c) eqn:Hc; [|reflexivity].
    now rewrite (split_subentries_leading_space c t Hc). }
  split.
  - unfold strip. destruct (rstrip_spaces (lstrip s)) as (ws & E & H).
    rewrite <- (L s). rewrite E at 2.
    now rewrite (split_subentries_trailing_spaces ws _ H).
  - intros before after Hb Ha.
    induction before as [|c before IH].
    + exact (split_subentries_trailing_spaces after s Ha).
    + cbn [all_chars] in Hb. apply andb_true_iff in Hb. destruct Hb as [Hc Hb].
      cbn [append]. rewrite (split_subentries_leading_space _ _ Hc).
      now apply IH.
Qed.

Lemma split_subentries_ignores_whitespace_witness :
  split_subentries ("  " ++ "(d) n. B1, v. B2" ++ " ") =
  split_subentries "(d) n. B1, v. B2".
Proof.
  exact (proj2 (split_subentries_ignores_whitespace "(d) n. B1, v. B2")
           "  " " " eq_refl eq_refl).
Defined.

(** ** Lines that end with the line feed [readlines] leaves *)

Section TrailingNewlineFacts.

Lemma append_last_cons (p q : string) (l : list string) (t : string) :
  append_last (p :: q :: l) t = p :: append_last (q :: l) t.
Proof. reflexivity. Qed.

Lemma split_by_trailing (f : ascii -> bool) (s : string) (c : ascii) :
  f c = false ->
  split_by f (s ++ String c "") = append_last (split_by f s) (String c "").
Proof.
  intros Hc. induction s as [|x s IH].
  - cbn [append split_by]. now rewrite Hc.
  - cbn [append split_by]. rewrite IH.
    destruct (split_by_nonempty f s) as (p & ps & E). rewrite E.
    destruct (f x).
    + now rewrite append_last_cons.
    + symmetry. apply append_last_cons_head. discriminate.
Qed.

Lemma join_append_last (sep : string) (ps : list string) (t : string) :
  ps <> [] -> join sep (append_last ps t) = join sep ps ++ t.
Proof.
  induction ps as [|p ps IH]; [congruence|]. intros _.
  destruct ps as [|q ps]; [reflexivity|].
  rewrite append_last_cons. specialize (IH ltac:(discriminate)).
  pose proof (append_last_nonempty (q :: ps) t ltac:(discriminate)) as N.
  destruct (append_last (q :: ps) t) as [|x xs]; [congruence|].
  rewrite !join_cons, IH. now rewrite !append_assoc.
Qed.

Lemma start_definition_trailing (s : string) :
  start_with_definition_pattern_match (s ++ NL) =
  start_with_definition_pattern_match s.
Proof.
  destruct s as [|c s]; [reflexivity|].
  cbn [append start_with_definition_pattern_match]. f_equal.
  induction s as [|x s IH]; [reflexivity|].
  cbn [append closes_before_newline]. now rewrite IH.
Qed.

Lemma prefix_trailing (p s : string) (c : ascii) :
  all_chars (fun x => negb (Ascii.eqb x c)) p = true ->
  prefix p (s ++ String c "") = prefix p s.
Proof.
  revert s. induction p as [|a p IH]; intros s H.
  - now rewrite !prefix_nil.
  - cbn [all_chars] in H. apply andb_true_iff in H. destruct H as [Ha Hp].
    apply negb_true_iff in Ha. destruct s as [|x s].
    + cbn [append]. rewrite prefix_cons, Ha. reflexivity.
    + cbn [append]. rewrite !prefix_cons, (IH s Hp). reflexivity.
Qed.

Lemma start_part_of_speech_trailing (s : string) :
  start_with_part_of_speech_pattern_match (s ++ NL) =
  start_with_part_of_speech_pattern_match s.
Proof.
  unfold start_with_part_of_speech_pattern_match.
  assert (forall l,
             (forall p, In p l -> In p part_of_speech_vocabulary) ->
             existsb (fun p => prefix p (s ++ NL)) l
             = existsb (fun p => prefix p s) l) as G.
  { induction l as [|p l IH]; intros Hl; [reflexivity|].
    cbn [existsb]. rewrite IH by (intros; apply Hl; now right).
    f_equal. apply prefix_trailing.
    destruct (good_tag_facts p (vocabulary_good_tags p (Hl p (or_introl eq_refl))))
      as (Hc & _).
    revert Hc. apply all_chars_weaken. intros x. unfold tag_char.
    rewrite andb_true_iff, !negb_true_iff, !orb_false_iff.
    intros (_ & _ & H). exact H. }
  apply G. auto.
Qed.

(** The scan of the parts of a line with its line feed: the same stop, or no
    stop in either. *)
Lemma scan_word_parts_trailing (ps : list string) :
  (scan_word_parts ps = ps
   /\ scan_word_parts (append_last ps NL) = append_last ps NL)
  \/ (scan_word_parts ps <> ps
      /\ scan_word_parts (append_last ps NL) = scan_word_parts ps).
Proof.
  induction ps as [|p ps IH]; [now left|].
  assert (join " " (append_last (p :: ps) NL) = join " " (p :: ps) ++ NL) as J
      by (apply join_append_last; discriminate).
  assert (exists p' ps', append_last (p :: ps) NL = p' :: ps'
                         /\ (ps = [] -> p' = p ++ NL /\ ps' = [])
                         /\ (ps <> [] -> p' = p /\ ps' = append_last ps NL))
    as (p' & ps' & E & E0 & E1).
  { destruct ps as [|q ps].
    - exists (p ++ NL), []. repeat split; congruence.
    - exists p, (append_last (q :: ps) NL). repeat split; congruence. }
  rewrite E in *. cbn [scan_word_parts]. rewrite J.
  rewrite start_definition_trailing, start_part_of_speech_trailing.
  destruct (start_with_definition_pattern_match (join " " (p :: ps)));
    [right; split; [discriminate | reflexivity]|].
  destruct (start_with_part_of_speech_pattern_match (join " " (p :: ps)));
    [right; split; [discriminate | reflexivity]|].
  destruct ps as [|q ps].
  - destruct (E0 eq_refl) as [-> ->]. now left.
  - destruct E1 as [-> ->]; [discriminate|].
    destruct IH as [[H1 H2] | [H1 H2]]; rewrite H2.
    + left. now rewrite H1.
    + right. split; [congruence | reflexivity].
Qed.

Lemma prefix_length (w s : string) :
  prefix w s = true -> String.length w <= String.length s.
Proof.
  intros H. apply prefix_spec in H. destruct H as [t ->].
  rewrite length_append. lia.
Qed.

Lemma replace_from_trailing (w new : string) (c : ascii) :
  w <> "" -> all_chars (fun x => negb (Ascii.eqb x c)) w = true ->
  forall s k, k <= String.length s ->
  replace_from w new k (s ++ String c "") =
  replace_from w new k s ++ String c "".
Proof.
  intros Hne Hw. induction s as [|x s IH]; intros k Hk.
  - assert (k = 0) as -> by (simpl in Hk; lia).
    cbn [append replace_from].
    change (String c "") with ("" ++ String c "").
    rewrite (prefix_trailing w "" c Hw).
    destruct w; [congruence | reflexivity].
  - destruct k as [|k]; cbn [append replace_from].
    + change (String x (s ++ String c "")) with (String x s ++ String c "").
      rewrite (prefix_trailing w (String x s) c Hw).
      destruct (prefix w (String x s)) eqn:P.
      * rewrite IH; [now rewrite append_assoc|].
        apply prefix_length in P. simpl in P. lia.
      * cbn [append]. now rewrite IH by lia.
    + apply IH. simpl in Hk. lia.
Qed.

End TrailingNewlineFacts.

Section TrailingWordFacts.

Lemma find_word_line_feed (line : string) :
  find_word (line ++ NL) =
  if find_word line =? line then line ++ NL else find_word line.
Proof.
  pose proof (join_split " " line) as J. unfold find_word, split in *.
  rewrite (split_by_trailing _ line LF eq_refl).
  destruct (split_by_nonempty (Ascii.eqb " ") line) as (p & ps & E).
  rewrite E in *. fold NL.
  destruct ps as [|q ps].
  - cbn [append_last scan_word_parts join String.concat] in *.
    subst p. now rewrite String.eqb_refl.
  - rewrite append_last_cons.
    destruct (scan_word_parts_trailing (q :: ps)) as [[H1 H2] | [H1 H2]];
      rewrite H2.
    + rewrite H1, J, String.eqb_refl.
      rewrite <- append_last_cons, join_append_last by discriminate.
      now rewrite J.
    + replace (join " " (p :: scan_word_parts (q :: ps)) =? line) with false;
        [reflexivity|].
      symmetry. apply String.eqb_neq. intros Heq.
      destruct (scan_word_parts_stop (q :: ps)) as [H | (tl & Hn & Hps & _)];
        [contradiction|].
      rewrite <- J in Heq. rewrite Hps in Heq at 2.
      rewrite (join_app_nonempty " " p _ tl Hn) in Heq.
      apply (f_equal String.length) in Heq.
      rewrite !length_append in Heq. simpl in Heq. lia.
Qed.

End TrailingWordFacts.

(** X15: with the line feed that ends a line read from the file, the word
    is the one of the line without it when the scan stops at a boundary; when
    it does not, the word is the whole line and the line feed is part of
    it. *)
Theorem find_word_trailing_newline (line : string) :
  (find_word line <> line -> find_word (line ++ NL) = find_word line)
  /\ (find_word line = line -> find_word (line ++ NL) = line ++ NL).
Proof.
  rewrite find_word_line_feed. split; intros H.
  - apply String.eqb_neq in H. now rewrite H.
  - apply String.eqb_eq in H. now rewrite H.
Qed.

Lemma find_word_trailing_newline_witness :
  find_word ("bank n. A1" ++ NL) = "bank"
  /\ find_word ("hello" ++ NL) = "hello" ++ NL.
Proof.
  split.
  - refine (proj1 (find_word_trailing_newline "bank n. A1") _). discriminate.
  - exact (proj2 (find_word_trailing_newline "hello") eq_refl).
Defined.

(** X16: for a line without line feed whose scan stops at a boundary, the
    line feed that [readlines] leaves at the end changes neither the
    remainder nor the entry: only the first log record shows it. *)
Theorem trailing_newline_ignored (line : string) :
  all_chars (fun c => negb (Ascii.eqb c LF)) line = true ->
  find_word line <> line ->
  remove_word (line ++ NL) (find_word (line ++ NL)) =
  remove_word line (find_word line)
  /\ parse_word_entry (line ++ NL) =
     (BEGIN_PARSING_WORD_ENTRY (line ++ NL) :: tl (fst (parse_word_entry line)),
      snd (parse_word_entry line)).
Proof.
  intros Hline Hb.
  assert (find_word (line ++ NL) = find_word line) as Fw.
  { rewrite find_word_line_feed.
    apply String.eqb_neq in Hb. now rewrite Hb. }
  assert (remove_word (line ++ NL) (find_word line)
          = remove_word line (find_word line)) as Rw.
  { unfold remove_word, replace.
    destruct (find_word_prefix line) as [rest E].
    destruct (find_word line) as [|o w] eqn:W.
    - fold (replace (line ++ NL) "" ""). fold (replace line "" "").
      rewrite !replace_empty_by_empty. now apply strip_trailing_space.
    - unfold NL. rewrite replace_from_trailing; try lia; try discriminate.
      + now apply strip_trailing_space.
      + rewrite E, all_chars_app in Hline. apply andb_true_iff in Hline.
        exact (proj1 Hline). }
  rewrite Fw. split; [exact Rw|].
  unfold parse_word_entry. rewrite Fw, Rw.
  destruct (parse_remainder (remove_word line (find_word line)))
    as [l [e|parsed]]; reflexivity.
Qed.

Lemma trailing_newline_ignored_witness :
  snd (parse_word_entry ("bank (money) n. B1" ++ NL)) =
  snd (parse_word_entry "bank (money) n. B1").
Proof.
  destruct (trailing_newline_ignored "bank (money) n. B1" eq_refl) as [_ H].
  - discriminate.
  - rewrite H. reflexivity.
Defined.

(** ** No more subentries than level codes *)

Section CountFacts.

Lemma level_prefix_app (s t : string) :
  existsb (fun l => prefix l s) LEVEL_VALUES = true ->
  existsb (fun l => prefix l (s ++ t)) LEVEL_VALUES = true.
Proof.
  rewrite !existsb_exists. intros (l & Hl & P). exists l.
  split; [assumption|]. apply prefix_spec in P. destruct P as [u ->].
  rewrite append_assoc. apply prefix_append.
Qed.

Lemma count_level_codes_app (a b : string) :
  count_level_codes a + count_level_codes b <= count_level_codes (a ++ b).
Proof.
  induction a as [|c a IH]; [simpl; lia|].
  cbn [append count_level_codes].
  destruct (existsb (fun l => prefix l (String c a)) LEVEL_VALUES) eqn:E.
  - change (String c (a ++ b)) with (String c a ++ b).
    rewrite (level_prefix_app _ b E). lia.
  - destruct (existsb _ LEVEL_VALUES); lia.
Qed.

Lemma count_level_codes_strip (s : string) :
  count_level_codes (strip s) <= count_level_codes s.
Proof.
  destruct (strip_substring s) as (a & b & E). rewrite E at 2.
  pose proof (count_level_codes_app a (strip s ++ b)).
  pose proof (count_level_codes_app (strip s) b). lia.
Qed.

Lemma re_split_first_piece (s : string) :
  exists p ps t, re_split_level_comma s = p :: ps /\ s = p ++ t.
Proof.
  induction s as [|a s (p & ps & t & E & Es)].
  - exists "", [], "". split; reflexivity.
  - rewrite re_split_level_comma_unfold.
    assert (exists p' ps' t',
               cons_head a (re_split_level_comma s) = p' :: ps'
               /\ String a s = p' ++ t') as Hc.
    { rewrite E. exists (String a p), ps, t. split; [reflexivity|].
      simpl. now rewrite <- Es. }
    destruct s as [|b [|c rest]]; try exact Hc.
    destruct (_ && _); [|exact Hc].
    exists "", (String a (String b "") :: re_split_level_comma rest),
      (String a (String b (String c rest))). split; reflexivity.
Qed.

Lemma count_cons_head (a : ascii) (l : list string) (s : string) :
  (exists p ps t, l = p :: ps /\ s = p ++ t) ->
  count_in_pieces l <= count_level_codes s ->
  count_in_pieces (cons_head a l) <= count_level_codes (String a s).
Proof.
  intros (p & ps & t & -> & ->) H. cbn [cons_head count_in_pieces] in *.
  cbn [count_level_codes].
  destruct (existsb (fun l => prefix l (String a p)) LEVEL_VALUES) eqn:E.
  - change (String a (p ++ t)) with (String a p ++ t).
    rewrite (level_prefix_app _ t E). lia.
  - destruct (existsb _ LEVEL_VALUES); lia.
Qed.

(** The pieces of the split hold no more level codes than the text. *)
Lemma count_in_pieces_bound (s : string) :
  count_in_pieces (re_split_level_comma s) <= count_level_codes s.
Proof.
  remember (String.length s) as n eqn:Hn. revert s Hn.
  induction n as [n IH] using lt_wf_ind. intros s Hn.
  destruct s as [|a s]; [simpl; lia|].
  rewrite re_split_level_comma_unfold.
  assert (count_in_pieces (cons_head a (re_split_level_comma s))
          <= count_level_codes (String a s)) as Hc.
  { apply count_cons_head; [apply re_split_first_piece|].
    apply (IH (String.length s)); [simpl in Hn; lia | reflexivity]. }
  destruct s as [|b [|c rest]]; try exact Hc.
  destruct (Ascii.eqb c "," && is_level (String a (String b ""))) eqn:M;
    [|exact Hc].
  apply andb_true_iff in M. destruct M as [_ M].
  cbn [count_in_pieces].
  assert (count_level_codes (String a (String b "")) = 1) as ->.
  { apply is_level_In in M. clear - M. each_level M ltac:(reflexivity). }
  pose proof (IH (String.length rest) ltac:(simpl in Hn; lia) rest eq_refl).
  cbn [count_level_codes].
  replace (existsb (fun l => prefix l (String a (String b (String c rest))))
                   LEVEL_VALUES) with true.
  - destruct (existsb _ LEVEL_VALUES); destruct (existsb _ LEVEL_VALUES);
      simpl; lia.
  - symmetry. apply existsb_exists. exists (String a (String b "")).
    split; [now apply is_level_In|].
    apply (prefix_append (String a (String b "")) (String c rest)).
Qed.

Lemma split_loop_count (pieces : list string) (part : string) :
  List.length (split_loop part pieces) <= count_in_pieces pieces.
Proof.
  revert part. induction pieces as [|p ps IH]; intros part; [simpl; lia|].
  rewrite split_loop_cons. cbn [count_in_pieces].
  destruct (strip p =? ""); [specialize (IH part); lia|].
  pose proof (count_level_codes_strip p) as Hs.
  destruct (is_level (strip p)) eqn:L.
  - cbn [List.length]. specialize (IH part).
    enough (1 <= count_level_codes (strip p)) by lia.
    apply count_level_codes_pos. apply is_level_In in L.
    exists "", (strip p), "". split; [assumption|].
    simpl. now rewrite append_nil_r.
  - destruct (existsb (endswith (strip p)) LEVEL_VALUES) eqn:E.
    + cbn [List.length]. specialize (IH part).
      enough (1 <= count_level_codes (strip p)) by lia.
      apply count_level_codes_pos. apply existsb_exists in E.
      destruct E as (l & Hl & He). apply endswith_spec in He.
      destruct He as [pre Hp]. exists pre, l, "".
      split; [assumption | now rewrite append_nil_r].
    + specialize (IH (strip p)). lia.
Qed.

End CountFacts.

(** X17: the splitter never emits more raw subentries than there are level
    codes in its input. *)
Theorem subentries_bounded_by_level_codes (line : string) :
  List.length (split_subentries line) <= count_level_codes line.
Proof.
  unfold split_subentries.
  pose proof (split_loop_count (re_split_level_comma line) "").
  pose proof (count_in_pieces_bound line). lia.
Qed.

(** ** An opening parenthesis that is never closed *)

(** X18: for a subentry that opens a parenthesis and holds no other
    parenthesis, the definition is everything after the opening
    parenthesis, tags and level code included, and nothing is removed from
    the working text but the surrounding whitespace. *)
Theorem unclosed_definition (t : string) :
  all_chars (fun c => negb (is_paren c)) t = true ->
  definition_text ("(" ++ t) = t
  /\ remove_definition ("(" ++ t) t = strip ("(" ++ t)
  /\ forall log r,
       parse_subentry ("(" ++ t) = (log, inr r) -> definition r = t.
Proof.
  intros H.
  assert (definition_text ("(" ++ t) = t) as D.
  { unfold definition_text, startswith, split.
    change ("(" ++ t) with (String "(" t).
    rewrite prefix_cons, prefix_nil.
    cbn [Ascii.eqb Bool.eqb andb split_by tl].
    rewrite (split_by_no_sep (Ascii.eqb "(") t).
    - cbn [hd]. rewrite (split_by_no_sep (Ascii.eqb ")") t); [reflexivity|].
      revert H. apply all_chars_weaken. intros c. unfold is_paren.
      rewrite !negb_true_iff, orb_false_iff, (Ascii.eqb_sym ")" c). tauto.
    - revert H. apply all_chars_weaken. intros c. unfold is_paren.
      rewrite !negb_true_iff, orb_false_iff, (Ascii.eqb_sym "(" c). tauto. }
  split; [exact D|]. split.
  - unfold remove_definition. rewrite replace_no_occurrence; [reflexivity|].
    intros p q E. apply (f_equal String.length) in E.
    rewrite !length_append in E. simpl in E. rewrite ?length_append in E.
    simpl in E. lia.
  - intros log r. rewrite parse_subentry_eq. cbv zeta. rewrite D.
    destruct (level_pattern_search _); [|discriminate].
    now intros [= _ <-].
Qed.

Lemma unclosed_definition_witness :
  parse_subentry "(money n. B1" =
  ([DEFINITION "money n. B1"; LEVEL "B1";
    PART_OF_SPEECH_NOT_MATCHED "(money n."; PART_OF_SPEECH []],
   inr {| definition := "money n. B1"; partsOfSpeech := []; level := "B1" |})
  /\ definition_text "(money n. B1" = "money n. B1".
Proof.
  split; [reflexivity|].
  exact (proj1 (unclosed_definition "money n. B1" eq_refl)).
Defined.
